(** * IFC viewer (ThatOpen components): a shallow embedding of [main.ts]

    The viewer is one TypeScript module of top-level statements, event
    handlers and helper functions that drive a BIM component library
    ([OBC], [OBCF]), three.js ([THREE]) and the DOM.  The embedding keeps
    that shape:

    - the viewer's own variables ([isLoading], [baseElevationOffset],
      [storeyData], [floorViews], [filterState], ...) are fields of explicit
      state records that each function takes and returns;
    - every call by which the viewer acts on the library, on three.js or on
      the browser is recorded, in program order, in a list of [call]s
      returned next to the state; console output and the construction of
      the side panel are left out;
    - what the library hands back to a query (bounding boxes, item data,
      classification groups, promise outcomes) is an argument of the
      function that asks;
    - JavaScript numbers are idealised as exact rationals [Q]; the sentinel
      [Infinity] of [adjustModelToLevel0] is a constructor of its own;
    - an [async] function is cut at its [await]s into the segments the event
      loop runs atomically.

    Two revisions of the entry point are present in the sources: a fuller
    one (with the view cube, [frameModel], [adjustModelToLevel0]), which
    the top level of this file embeds, and a plainer [src/main.ts].  The
    functions they share are the same; where [src/main.ts] differs it is
    embedded in [Module Main_ts]. *)

From Stdlib Require Import QArith Qround Lqa Ascii String.
From stdpp Require Import gmap strings list pretty.
From Stdlib Require Import Sorted.

Open Scope Q_scope.

(** ** JavaScript numbers and [Math] *)

Module JS.

Definition number : Type := Q.

(** [a < b] on numbers. *)
Definition ltb (a b : number) : bool := negb (Qle_bool b a).

(** [Math.max(a, b)]. *)
Definition Math_max (a b : number) : number := if ltb a b then b else a.

(** [Math.max(a, b, c)]. *)
Definition Math_max3 (a b c : number) : number := Math_max (Math_max a b) c.

(** [Math.ceil] and [Math.round] (round half up); both yield integers. *)
Definition Math_ceil (a : number) : Z := Qceiling a.
Definition Math_round (a : number) : Z := Qfloor (a + 0.5).

(** Outcome of a library call or of a promise: the code has [try]/[catch]
    around several of them. *)
Inductive outcome (A : Type) : Type :=
| Returns (a : A)
| Throws.
Arguments Returns {A} a.
Arguments Throws {A}.

End JS.
Import JS.

(** ** The part of three.js the viewer computes with *)

Module THREE.

Record Vector3 : Type := mkVector3 { x : number; y : number; z : number }.

Record Box3 : Type := mkBox3 { min : Vector3; max : Vector3 }.

(** [Vector3.add], [Vector3.sub], [Vector3.multiplyScalar], [lengthSq],
    [Vector3.dot]. *)
Definition add (a b : Vector3) : Vector3 :=
  mkVector3 (x a + x b) (y a + y b) (z a + z b).
Definition sub (a b : Vector3) : Vector3 :=
  mkVector3 (x a - x b) (y a - y b) (z a - z b).
Definition multiplyScalar (a : Vector3) (s : number) : Vector3 :=
  mkVector3 (x a * s) (y a * s) (z a * s).
Definition lengthSq (a : Vector3) : number :=
  x a * x a + y a * y a + z a * z a.
Definition dot (a b : Vector3) : number :=
  x a * x b + y a * y b + z a * z b.

(** [Box3.isEmpty]: some [max] coordinate is below the [min] one. *)
Definition isEmpty (b : Box3) : bool :=
  ltb (x (max b)) (x (min b)) || ltb (y (max b)) (y (min b))
  || ltb (z (max b)) (z (min b)).

(** [Box3.getCenter] and [Box3.getSize]: the origin for an empty box. *)
Definition getCenter (b : Box3) : Vector3 :=
  if isEmpty b then mkVector3 0 0 0
  else multiplyScalar (add (min b) (max b)) 0.5.
Definition getSize (b : Box3) : Vector3 :=
  if isEmpty b then mkVector3 0 0 0 else sub (max b) (min b).

(** [Box3.expandByScalar]. *)
Definition expandByScalar (b : Box3) (s : number) : Box3 :=
  mkBox3 (mkVector3 (x (min b) - s) (y (min b) - s) (z (min b) - s))
         (mkVector3 (x (max b) + s) (y (max b) + s) (z (max b) + s)).

(** [Box3.containsPoint]. *)
Definition containsPoint (b : Box3) (p : Vector3) : Prop :=
  x (min b) <= x p <= x (max b) /\ y (min b) <= y p <= y (max b)
  /\ z (min b) <= z p <= z (max b).

End THREE.
Import THREE.

(** ** Item data returned by [model.getItemsData] *)

(** An entry of the attribute record of an item.  The viewer reads an
    attribute only behind the test
    ["K" in attributes && attributes.K && typeof attributes.K === "object" && "value" in attributes.K],
    so the cases are the ways that test can go. *)
Inductive attribute (A : Type) : Type :=
| absent                      (* no such key *)
| falsy                       (* null, undefined, 0, false, the empty string *)
| primitive                   (* a truthy value that is not an object *)
| object_without_value        (* an object with no [value] key *)
| object_with_value (value : A).
Arguments absent {A}.
Arguments falsy {A}.
Arguments primitive {A}.
Arguments object_without_value {A}.
Arguments object_with_value {A} value.

(** The four-fold test, and the read of [.value] that follows it. *)
Definition has_value {A} (a : attribute A) : option A :=
  match a with
  | object_with_value v => Some v
  | absent | falsy | primitive | object_without_value => None
  end.

Record ItemData : Type := mkItemData {
  Name : attribute string;
  Elevation : attribute number;
}.

(** [Object.values(storeys).flat()]. *)
Definition Object_values_flat (storeys : list (string * list N)) : list N :=
  concat (map snd storeys).

(** ** What the library gives the viewer *)

(** A loaded fragments model, as far as the viewer looks at it: its key in
    [fragments.list]; the box [new THREE.Box3().setFromObject(model.object)]
    computes for it; and the queries [adjustModelToLevel0] and
    [updateStoreyData] await: [getCoordinates] (of whose result only the
    second component, [coordHeight], is read),
    [getItemsOfCategories([/BUILDINGSTOREY/])] (a record from category to
    local ids) and [getItemsData].  Each may raise. *)
Record Model : Type := mkModel {
  modelId : string;
  setFromObject : outcome Box3;
  getCoordinates : outcome number;
  getItemsOfCategories : outcome (list (string * list N));
  getItemsData : list N -> outcome (list ItemData);
}.

(** Identifier of a floor-plan view.  The manual views are named by the
    template [`Nível ${i + 1} (${elevation.toFixed(1)}m)`]; the embedding
    keeps the two interpolated values instead of the formatted text. *)
Inductive viewId : Type :=
| IfcStorey (name : string)
| Nivel (level : Z) (elevation : number)
| VistaSuperior.

Record View : Type := mkView {
  id : viewId;
  normal : Vector3;
  point : Vector3;
}.

(** A file chosen or dropped by the user. *)
Record File : Type := mkFile { name : string; contents : list Byte.byte }.

(** ** Calls that leave the repository *)

Inductive call : Type :=
  (* browser *)
| alert (message : string)
| setTimeout (ms : Z)
| requestAnimationFrame
| file_arrayBuffer (file : File)
  (* OBC.FragmentsManager and its models *)
| model_useCamera (model : string)
| scene_add (model : string)
| fragments_core_update (force : bool)
| model_updateMatrixWorld (model : string)
| model_setVisible (model : string) (localIds : list N) (visible : bool)
  (* OBC.IfcLoader *)
| ifcLoader_load (buffer : list Byte.byte) (coordinate : bool) (name : string)
  (* OBC.Classifier *)
| classifier_byIfcBuildingStorey
| classifier_byCategory
  (* OBC.Views *)
| views_list_delete (view : viewId)
| views_createFromIfcStoreys (offset : number)
| views_create (normal point : Vector3) (view : viewId)
  (* OBC.Clipper *)
| clipper_create
| clipper_createFromNormalAndCoplanarPoint (normal point : Vector3)
| clipper_delete
| clipper_deleteAll
  (* camera-controls of the library camera *)
| controls_setLookAt (position target : Vector3) (enableTransition : bool)
| controls_fitToSphere (model : string) (enableTransition : bool)
  (* library world set-up *)
| new_OBC_SimpleScene
| new_OBCF_PostproductionRenderer
| new_OBC_OrthoPerspectiveCamera
| renderer_onAfterUpdate_add
  (* three.js objects the viewer builds itself *)
| new_THREE_Scene
| new_THREE_OrthographicCamera
| new_THREE_WebGLRenderer
| new_THREE_Mesh_BoxGeometry (width height depth : number)
| new_THREE_BoxHelper (center : Vector3)
| scene_add_helper
| scene_remove_helper
| cubeRenderer_render.

(** [const [model] = fragments.list.values()]: the first loaded model. *)
Definition first_model (fragments_list : list Model) : option Model :=
  head fragments_list.


(** ** Clipping planes *)

(** The red wireframe helper kept in [clippingBoxHelper]: the invisible box
    mesh it outlines, by size and position. *)
Record BoxHelper : Type := mkBoxHelper {
  helper_size : Vector3;
  helper_position : Vector3;
}.

Definition margin : number := 0.5.

(** [createClippingBox]: the "Criar Caixa de Corte" button. *)
Definition createClippingBox (fragments_list : list Model)
    (clippingBoxHelper : option BoxHelper) : option BoxHelper * list call :=
  match first_model fragments_list with
  | None =>
      (clippingBoxHelper,
       [alert "Carregue um modelo primeiro para criar a caixa de corte."])
  | Some model =>
      match setFromObject model with
      | Throws => (clippingBoxHelper, [])
      | Returns box =>
          let center := getCenter box in
          let size := getSize box in
          let removed :=
            match clippingBoxHelper with
            | Some _ => [scene_remove_helper]
            | None => []
            end in
          let width := x size + margin * 2 in
          let height := y size + margin * 2 in
          let depth := z size + margin * 2 in
          (Some (mkBoxHelper (mkVector3 width height depth) center),
           removed ++
           [ new_THREE_Mesh_BoxGeometry width height depth;
             new_THREE_BoxHelper center;
             scene_add_helper;
             (* Y+ *)
             clipper_createFromNormalAndCoplanarPoint
               (mkVector3 0 (-1) 0)
               (mkVector3 (x center) (y (max box) + margin) (z center));
             (* Y- *)
             clipper_createFromNormalAndCoplanarPoint
               (mkVector3 0 1 0)
               (mkVector3 (x center) (y (min box) - margin) (z center));
             (* Z+ *)
             clipper_createFromNormalAndCoplanarPoint
               (mkVector3 0 0 (-1))
               (mkVector3 (x center) (y center) (z (max box) + margin));
             (* Z- *)
             clipper_createFromNormalAndCoplanarPoint
               (mkVector3 0 0 1)
               (mkVector3 (x center) (y center) (z (min box) - margin));
             (* X+ *)
             clipper_createFromNormalAndCoplanarPoint
               (mkVector3 (-1) 0 0)
               (mkVector3 (x (max box) + margin) (y center) (z center));
             (* X- *)
             clipper_createFromNormalAndCoplanarPoint
               (mkVector3 1 0 0)
               (mkVector3 (x (min box) - margin) (y center) (z center)) ])
      end
  end.

(** The double-click handler on the container, in clipping mode, the
    Delete/Backspace key handler ([clipper.list.size] is given) and the
    "Remover Todos os Planos" button. *)
Definition onDblClick_clipping : list call := [clipper_create].

Definition onKeyDelete (clipper_list_size : nat) : list call :=
  if (0 <? clipper_list_size)%nat then [clipper_delete] else [].

Definition onDeletePlanes : list call := [clipper_deleteAll].

(** The planes a trace asks the library clipper for. *)
Inductive plane_request : Type :=
| at_cursor
| from_normal_and_point (normal point : Vector3).

Definition plane_of (c : call) : option plane_request :=
  match c with
  | clipper_create => Some at_cursor
  | clipper_createFromNormalAndCoplanarPoint n p =>
      Some (from_normal_and_point n p)
  | _ => None
  end.

Definition planes (trace : list call) : list plane_request :=
  omap plane_of trace.

(** ** Camera framing *)

(** [frameModel].  [size.length()] is a square root; its comparisons with
    [0.1] and [10000] are written on the squares. *)
Definition frameModel (model : Model) : list call :=
  match setFromObject model with
  | Throws => [controls_fitToSphere (modelId model) true]
  | Returns box =>
      if isEmpty box then []
      else
        let size := getSize box in
        let center := getCenter box in
        if ltb (lengthSq size) (0.1 * 0.1)
           || ltb (10000 * 10000) (lengthSq size)
        then [controls_fitToSphere (modelId model) true]
        else
          let maxDim := Math_max3 (x size) (y size) (z size) in
          let distance := maxDim * 1.8 in
          let offset :=
            mkVector3 (distance * 0.6) (distance * 0.4) (distance * 0.8) in
          let cameraPosition := add center offset in
          [controls_setLookAt cameraPosition center true]
  end.

(** The "Enquadrar Modelo" button. *)
Definition onFrameModelClick (fragments_list : list Model) : list call :=
  match fragments_list with
  | model :: _ => frameModel model
  | [] => [alert "Nenhum modelo carregado para enquadrar."]
  end.

(** ** Floor plans *)

Definition down : Vector3 := mkVector3 0 (-1) 0.

(** The view [views.create(normal, point, { id, world })] returns. *)
Definition create_view (normal point : Vector3) (id : viewId) : View :=
  mkView id normal point.

(** The fall-back of [generateFloorPlans]: one view per assumed 3 m floor,
    then a top view. *)
Definition numFloors_of (height : number) : Z :=
  Z.max 1 (Math_ceil (height / 3)).

Definition manual_floor (box : Box3) (center : Vector3) (floorHeight : number)
    (i : Z) : View :=
  let elevation := y (min box) + (inject_Z i * floorHeight) + (floorHeight / 2) in
  create_view down
    (mkVector3 (x center) (elevation + 1.5) (z center))
    (Nivel (i + 1) elevation).

Definition manual_views (box : Box3) : list View :=
  let center := getCenter box in
  let size := getSize box in
  let height := y size in
  let numFloors := numFloors_of height in
  let floorHeight := height / inject_Z numFloors in
  map (manual_floor box center floorHeight) (seqZ 0 numFloors)
  ++ [ create_view down
         (mkVector3 (x center) (y (max box) + 2) (z center))
         VistaSuperior ].

Definition create_call (v : View) : call :=
  views_create (normal v) (point v) (id v).

(** [generateFloorPlans].  [createFromIfcStoreys] is what
    [views.createFromIfcStoreys({ world, offset: 1.5 })] resolves to;
    [floorViews] is the module variable, returned updated. *)
Definition generateFloorPlans (fragments_list : list Model)
    (createFromIfcStoreys : outcome (list View)) (floorViews : list View)
    : list View * list call :=
  match first_model fragments_list with
  | None => (floorViews, [])
  | Some model =>
      let cleared :=
        classifier_byIfcBuildingStorey
        :: map (fun view => views_list_delete (id view)) floorViews in
      match setFromObject model with
      | Throws => ([], cleared)
      | Returns box =>
          let floorViews :=
            match createFromIfcStoreys with
            | Returns ifcViews =>
                if (0 <? length ifcViews)%nat then ifcViews else []
            | Throws => []
            end in
          let asked := cleared ++ [views_createFromIfcStoreys 1.5] in
          if (length floorViews =? 0)%nat
          then
            let manual := manual_views box in
            (manual, asked ++ map create_call manual)
          else (floorViews, asked)
      end
  end.

(** ** Ground-floor normalisation *)

(** [minElevation] starts at [Infinity]; the elevations read from the item
    data are finite. *)
Inductive bound : Type :=
| Infinity
| finite (v : number).

Definition lt_bound (elevation : number) (minElevation : bound) : bool :=
  match minElevation with
  | Infinity => true
  | finite v => ltb elevation v
  end.

(** One turn of the [for (const attributes of data)] loop of
    [adjustModelToLevel0], on the pair [(minElevation, groundFloorName)]. *)
Definition lowest_step (acc : bound * string) (attributes : ItemData)
    : bound * string :=
  match has_value (Elevation attributes) with
  | Some elevation =>
      if lt_bound elevation (fst acc)
      then (finite elevation,
            match has_value (Name attributes) with
            | Some name => name
            | None => snd acc
            end)
      else acc
  | None => acc
  end.

Definition lowest (data : list ItemData) : bound * string :=
  fold_left lowest_step data (Infinity, EmptyString).

(** The two variables [adjustModelToLevel0] writes: [model.object.position.y]
    and the module variable [baseElevationOffset]. *)
Record Level : Type := mkLevel {
  position_y : number;
  baseElevationOffset : number;
}.

(** [adjustModelToLevel0].  The [catch] only logs, so a rejected query
    ends the function like the early [return]. *)
Definition adjustModelToLevel0 (model : Model) (st : Level) : Level :=
  match getCoordinates model with
  | Throws => st
  | Returns coordHeight =>
      match getItemsOfCategories model with
      | Throws => st
      | Returns storeys =>
          let localIds := Object_values_flat storeys in
          if (length localIds =? 0)%nat then st
          else
            match getItemsData model localIds with
            | Throws => st
            | Returns data =>
                match fst (lowest data) with
                | Infinity => st
                | finite minElevation =>
                    let totalOffset := coordHeight + minElevation in
                    mkLevel (- totalOffset) minElevation
                end
            end
      end
  end.

(** ** Storey data for the grid-level selector *)

(** The [find] callback of [getStoreyElevation]. *)
Definition named (name : string) (attributes : ItemData) : bool :=
  match has_value (Name attributes) with
  | Some v => String.eqb v name
  | None => false
  end.

(** [getStoreyElevation], reading [storeyData] and [baseElevationOffset]. *)
Definition getStoreyElevation (storeyData : list ItemData)
    (baseElevationOffset : number) (name : string) : number :=
  match List.find (named name) storeyData with
  | None => 0
  | Some storey =>
      match has_value (Elevation storey) with
      | None => 0
      | Some storeyElevation => storeyElevation - baseElevationOffset
      end
  end.

(** The comparator of [allStoreyData.sort]: a missing elevation counts as 0. *)
Definition elevation_or_0 (a : ItemData) : number :=
  match has_value (Elevation a) with
  | Some v => v
  | None => 0
  end.

(** [Array.prototype.sort] with that comparator: a stable sort, here by
    insertion. *)
Fixpoint insert_by_elevation (a : ItemData) (l : list ItemData)
    : list ItemData :=
  match l with
  | [] => [a]
  | b :: l' =>
      if ltb (elevation_or_0 b) (elevation_or_0 a)
      then b :: insert_by_elevation a l'
      else a :: b :: l'
  end.

Definition sort_by_elevation (l : list ItemData) : list ItemData :=
  foldr insert_by_elevation [] l.

(** One turn of the inner loop of [updateStoreyData], on
    [(allStoreyData, seenNames)]. *)
Definition collect_step (acc : list ItemData * gset string)
    (attributes : ItemData) : list ItemData * gset string :=
  match has_value (Name attributes) with
  | Some name =>
      if bool_decide (name ∈ snd acc) then acc
      else (fst acc ++ [attributes], {[name]} ∪ snd acc)
  | None => acc
  end.

(** The outer loop over the loaded models; a rejected query leaves the
    [try] block. *)
Fixpoint collect_models (models : list Model)
    (acc : list ItemData * gset string)
    : outcome (list ItemData * gset string) :=
  match models with
  | [] => Returns acc
  | model :: rest =>
      match getItemsOfCategories model with
      | Throws => Throws
      | Returns storeys =>
          match getItemsData model (Object_values_flat storeys) with
          | Throws => Throws
          | Returns data =>
              collect_models rest (fold_left collect_step data acc)
          end
      end
  end.

(** [updateStoreyData]: the new value of [storeyData]. *)
Definition updateStoreyData (fragments_list : list Model) : list ItemData :=
  match fragments_list with
  | [] => []
  | _ =>
      match collect_models fragments_list ([], ∅) with
      | Returns acc => sort_by_elevation (fst acc)
      | Throws => []
      end
  end.


(** ** Loading a file *)

(** [String.prototype.replace] with a string pattern: the first occurrence
    only. *)
Fixpoint replace (pattern replacement s : string) : string :=
  if String.prefix pattern s
  then replacement +:+ String.substring (String.length pattern)
                         (String.length s - String.length pattern) s
  else match s with
       | EmptyString => EmptyString
       | String c s' => String c (replace pattern replacement s')
       end.

(** [toLowerCase] on the ASCII letters, and [endsWith]. *)
Definition lower (c : ascii) : ascii :=
  let n := nat_of_ascii c in
  if ((65 <=? n) && (n <=? 90))%nat then ascii_of_nat (n + 32) else c.

Fixpoint toLowerCase (s : string) : string :=
  match s with
  | EmptyString => EmptyString
  | String c s' => String (lower c) (toLowerCase s')
  end.

Definition endsWith (s suffix : string) : bool :=
  (String.length suffix <=? String.length s)%nat
  && String.eqb
       (String.substring (String.length s - String.length suffix)
          (String.length suffix) s)
       suffix.

(** The loading overlay: [style.display], the file-name line, the percentage
    shown by the bar and its label, and the status line. *)
Record Overlay : Type := mkOverlay {
  display : string;
  filename : string;
  percent : Z;
  status : string;
}.

Definition updateProgress (progress : number) (status' : string)
    (o : Overlay) : Overlay :=
  mkOverlay (display o) (filename o) (Math_round (progress * 100))
    (if String.eqb status' EmptyString then status o else status').

Definition showLoading (filename' : string) (o : Overlay) : Overlay :=
  let o := mkOverlay (display o) filename' (percent o) (status o) in
  let o := updateProgress 0 "Iniciando..." o in
  mkOverlay "flex" (filename o) (percent o) (status o).

Definition hideLoading (o : Overlay) : Overlay :=
  mkOverlay "none" (filename o) (percent o) (status o).

Record Loading : Type := mkLoading {
  isLoading : bool;
  loadingOverlay : Overlay;
}.

(** The module's initial values: [let isLoading = false] and the overlay's
    [cssText] with [display: none]. *)
Definition initial_loading : Loading :=
  mkLoading false (mkOverlay "none" "" 0 "Processando arquivo IFC").

(** An invocation of [loadIfcFromFile] parked at one of its three [await]s. *)
Inductive suspended : Type :=
| await_arrayBuffer (file : File)
| await_load (file : File)
| await_delay.

Inductive settlement : Type :=
| fulfilled
| rejected.

(** [finally { hideLoading(); isLoading = false; }] *)
Definition finally (st : Loading) : Loading :=
  mkLoading false (hideLoading (loadingOverlay st)).

(** [loadIfcFromFile] up to its first [await]. *)
Definition loadIfcFromFile (file : File) (st : Loading)
    : Loading * list call * option suspended :=
  if isLoading st then (st, [], None)
  else
    let o := showLoading (name file) (loadingOverlay st) in
    let o := updateProgress 0.05 "Lendo arquivo..." o in
    (mkLoading true o, [file_arrayBuffer file], Some (await_arrayBuffer file)).

(** [loadIfcFromFile] from an [await] to the next.  [file.arrayBuffer()]
    is fulfilled with the contents of the file, of which
    [new Uint8Array(data)] is a view.  A rejection runs [catch] and
    [finally]. *)
Definition resume (k : suspended) (r : settlement) (st : Loading)
    : Loading * list call * option suspended :=
  match r with
  | rejected =>
      (finally st,
       [alert "Erro ao carregar o arquivo IFC. Verifique o console."],
       None)
  | fulfilled =>
      match k with
      | await_arrayBuffer file =>
          let buffer := contents file in
          let o := updateProgress 0.1 "Processando IFC..." (loadingOverlay st) in
          (mkLoading (isLoading st) o,
           [ifcLoader_load buffer false (replace ".ifc" "" (name file))],
           Some (await_load file))
      | await_load file =>
          let o := updateProgress 1 "Concluído!" (loadingOverlay st) in
          (mkLoading (isLoading st) o, [setTimeout 500], Some await_delay)
      | await_delay => (finally st, [], None)
      end
  end.

(** [processData.progressCallback], called by the library during a load. *)
Definition progressCallback (progress : number) (st : Loading) : Loading :=
  let mappedProgress := 0.1 + (progress * 0.85) in
  mkLoading (isLoading st)
    (updateProgress mappedProgress "Convertendo geometrias..."
       (loadingOverlay st)).

(** [onFileInput], the [change] handler of the file input. *)
Definition onFileInput (files : list File) (st : Loading)
    : Loading * list call * option suspended :=
  match files with
  | file :: _ => loadIfcFromFile file st
  | [] => (st, [], None)
  end.

(** The [drop] handler of the container. *)
Definition onDrop (files : list File) (st : Loading)
    : Loading * list call * option suspended :=
  match files with
  | file :: _ =>
      if endsWith (toLowerCase (name file)) ".ifc"
      then loadIfcFromFile file st
      else (st, [alert "Por favor, solte apenas arquivos .ifc"], None)
  | [] => (st, [], None)
  end.

(** *** The page as an event loop

    Between two [await]s nothing else runs; at an [await] any handler may.
    A [Page] is the loading state, the parked invocations and the calls made
    so far. *)
Record Page : Type := mkPage {
  loading : Loading;
  parked : list suspended;
  trace : list call;
}.

Inductive event : Type :=
| file_chosen (files : list File)          (* change on the file input *)
| file_dropped (files : list File)         (* drop on the container *)
| settled (i : nat) (r : settlement)       (* the promise of [parked !! i] *)
| progress_reported (progress : number).   (* the library's callback *)

Definition initial_page : Page := mkPage initial_loading [] [].

Definition started (p : Page) (r : Loading * list call * option suspended)
    : Page :=
  mkPage (fst (fst r))
    (parked p ++ match snd r with Some k => [k] | None => [] end)
    (trace p ++ snd (fst r)).

Definition is_await_load (k : suspended) : bool :=
  match k with
  | await_load _ => true
  | _ => false
  end.

Definition step (p : Page) (e : event) : Page :=
  match e with
  | file_chosen files => started p (onFileInput files (loading p))
  | file_dropped files => started p (onDrop files (loading p))
  | settled i r =>
      match parked p !! i with
      | None => p
      | Some k =>
          let out := resume k r (loading p) in
          mkPage (fst (fst out))
            (match snd out with
             | Some k' => <[i:=k']> (parked p)
             | None => delete i (parked p)
             end)
            (trace p ++ snd (fst out))
      end
  | progress_reported progress =>
      if existsb is_await_load (parked p)
      then mkPage (progressCallback progress (loading p)) (parked p) (trace p)
      else p
  end.

Definition run (events : list event) (p : Page) : Page :=
  fold_left step events p.

(** The files the user has handed to the page. *)
Definition offered (e : event) : list File :=
  match e with
  | file_chosen files | file_dropped files => files
  | _ => []
  end.

(** ** Classification and filters *)

(** What [groupData.get()] resolves to: local ids per model id. *)
Definition ItemsMap : Type := list (string * list N).

(** A classification of [classifier.list]: its groups in iteration order. *)
Definition Classification : Type := list (string * ItemsMap).

(** [classifier.list.get("Storeys")] and [classifier.list.get("Categories")]. *)
Record Classifier : Type := mkClassifier {
  Storeys : option Classification;
  Categories : option Classification;
}.

(** [filterState]: two maps from group name to the state of its checkbox. *)
Record FilterState : Type := mkFilterState {
  storeys : gmap string bool;
  categories : gmap string bool;
}.

(** [filterMap.get(name)] used as a condition: [undefined] is falsy. *)
Definition checked (filterMap : gmap string bool) (name : string) : bool :=
  match filterMap !! name with
  | Some b => b
  | None => false
  end.

(** The loops of [updateFilterUI] over the group names: a name not yet in
    the map starts checked. *)
Definition register (filterMap : gmap string bool) (name : string)
    : gmap string bool :=
  match filterMap !! name with
  | Some _ => filterMap
  | None => <[name:=true]> filterMap
  end.

Definition register_all (c : option Classification)
    (filterMap : gmap string bool) : gmap string bool :=
  match c with
  | Some groups => fold_left register (map fst groups) filterMap
  | None => filterMap
  end.

Definition updateFilterUI (classifier : Classifier) (fs : FilterState)
    : FilterState :=
  mkFilterState (register_all (Storeys classifier) (storeys fs))
                (register_all (Categories classifier) (categories fs)).

(** [processClassifications]; [classifier] is the library's list once the
    two classifications it was asked for have resolved. *)
Definition processClassifications (fragments_list : list Model)
    (classifier : Classifier) (fs : FilterState) : FilterState * list call :=
  match first_model fragments_list with
  | None => (fs, [])
  | Some _ =>
      (updateFilterUI classifier fs,
       [classifier_byIfcBuildingStorey; classifier_byCategory])
  end.

(** [for (const expressIds of Object.values(itemsMap)) model.setVisible(ids, false)] *)
Definition hide_group (model : string) (itemsMap : ItemsMap) : list call :=
  map (fun ids => model_setVisible model ids false) (map snd itemsMap).

(** The loop over a classification that hides the unchecked groups. *)
Definition hide_unchecked (model : string) (c : option Classification)
    (filterMap : gmap string bool) : list call :=
  match c with
  | Some groups =>
      concat (map (fun g =>
                     if negb (checked filterMap (fst g))
                     then hide_group model (snd g)
                     else [])
                  groups)
  | None => []
  end.

(** [allIds], collected from the storey groups only. *)
Definition collect_allIds (c : option Classification) : list N :=
  match c with
  | Some groups => concat (map (fun g => concat (map snd (snd g))) groups)
  | None => []
  end.

(** [applyFilters]. *)
Definition applyFilters (fragments_list : list Model) (classifier : Classifier)
    (fs : FilterState) : list call :=
  match first_model fragments_list with
  | None => []
  | Some model =>
      let allIds := collect_allIds (Storeys classifier) in
      (if (0 <? length allIds)%nat
       then [model_setVisible (modelId model) allIds true]
       else [])
      ++ hide_unchecked (modelId model) (Storeys classifier) (storeys fs)
      ++ hide_unchecked (modelId model) (Categories classifier) (categories fs)
      ++ [fragments_core_update true]
  end.

(** [handleFilterChange] and [toggleAllFilters]: update the map, then
    [applyFilters]. *)
Inductive filter_type : Type :=
| storey
| category.


Definition toggleAllFilters (type : filter_type) (checked' : bool)
    (fs : FilterState) : FilterState :=
  match type with
  | storey => mkFilterState ((fun _ => checked') <$> storeys fs) (categories fs)
  | category => mkFilterState (storeys fs) ((fun _ => checked') <$> categories fs)
  end.

(** [String.prototype.includes]. *)
Fixpoint includes (s sub : string) : bool :=
  String.prefix sub s
  || match s with
     | EmptyString => false
     | String _ s' => includes s' sub
     end.

(** [hideIfcSpaces]: hides the groups whose category name contains
    "ifcspace" and unchecks their filters. *)
Definition is_ifcspace (categoryName : string) : bool :=
  includes (toLowerCase categoryName) "ifcspace".

Definition hideIfcSpaces (fragments_list : list Model) (classifier : Classifier)
    (fs : FilterState) : FilterState * list call :=
  match first_model fragments_list, Categories classifier with
  | Some model, Some groups =>
      let spaces := filter (fun g => is_ifcspace (fst g) = true) groups in
      let fs' :=
        mkFilterState (storeys fs)
          (fold_left (fun m g => <[fst g:=false]> m) spaces (categories fs)) in
      (updateFilterUI classifier fs',
       concat (map (fun g => hide_group (modelId model) (snd g)) spaces)
       ++ [fragments_core_update true])
  | _, _ => (fs, [])
  end.

(** *** What the library does with [setVisible]

    The hidden local ids of one model; [model.setVisible(ids, visible)]
    removes the ids from them or adds them. *)
Definition setVisible (localIds : list N) (visible : bool) (hidden : gset N)
    : gset N :=
  if visible then hidden ∖ list_to_set localIds
  else hidden ∪ list_to_set localIds.

Definition visibility_step (model : string) (hidden : gset N) (c : call)
    : gset N :=
  match c with
  | model_setVisible m localIds visible =>
      if String.eqb m model then setVisible localIds visible hidden else hidden
  | _ => hidden
  end.

Definition hidden_after (model : string) (calls : list call)
    (hidden : gset N) : gset N :=
  fold_left (visibility_step model) calls hidden.

(** An item, by local id, is in a group when some value of the group's
    items map lists it. *)
Definition in_group (e : N) (itemsMap : ItemsMap) : Prop :=
  ∃ ids, ids ∈ map snd itemsMap ∧ e ∈ ids.

Definition groups_of (c : option Classification) : Classification :=
  match c with
  | Some groups => groups
  | None => []
  end.

(** The item is in some group of the classification; and every group of
    the classification that holds the item has its filter checked. *)
Definition classified (e : N) (c : option Classification) : Prop :=
  ∃ g, g ∈ groups_of c ∧ in_group e (snd g).

Definition all_checked (e : N) (c : option Classification)
    (filterMap : gmap string bool) : Prop :=
  ∀ g, g ∈ groups_of c → in_group e (snd g) → checked filterMap (fst g) = true.

(** ** The view cube and the world *)

(** The top-level statements that create the world. *)
Definition world_setup : list call :=
  [new_OBC_SimpleScene; new_OBCF_PostproductionRenderer;
   new_OBC_OrthoPerspectiveCamera].

(** [updateViewCube], the callback [createViewCube] adds to
    [world.renderer.onAfterUpdate]: it turns the cube camera and draws the
    cube scene with the cube renderer. *)
Definition updateViewCube : list call := [cubeRenderer_render].

(** [createViewCube], as far as rendering goes: a scene, a camera and a
    renderer of its own, the cube mesh, the registration of
    [updateViewCube], and a first drawing. *)
Definition createViewCube : list call :=
  [new_THREE_Scene; new_THREE_OrthographicCamera; new_THREE_WebGLRenderer;
   new_THREE_Mesh_BoxGeometry 1.5 1.5 1.5; renderer_onAfterUpdate_add]
  ++ updateViewCube.

(** The calls of the start-up, and those of [n] updates of the
    library renderer that follow it. *)
Definition startup : list call := world_setup ++ createViewCube.

Definition frames (n : nat) : list call :=
  concat (replicate n updateViewCube).

(** The plainer [src/main.ts]: it has no view cube, and its handler of
    [fragments.list.onItemSet] has the library frame the camera, then defers
    floor plans and classifications by half a second. *)
Module Main_ts.

Definition startup : list call := world_setup.

Definition frames (n : nat) : list call := [].

Definition onItemSet (model : Model) : list call :=
  [ model_useCamera (modelId model);
    scene_add (modelId model);
    fragments_core_update true;
    controls_fitToSphere (modelId model) true;
    setTimeout 500 ].

End Main_ts.

(** Renderers, scenes and cameras the viewer builds with three.js itself,
    and the drawing calls it makes on them. *)
Definition own_rendering (c : call) : bool :=
  match c with
  | new_THREE_Scene | new_THREE_OrthographicCamera | new_THREE_WebGLRenderer
  | cubeRenderer_render => true
  | _ => false
  end.

Definition is_registration (c : call) : bool :=
  match c with
  | renderer_onAfterUpdate_add => true
  | _ => false
  end.

(** ** When a model is set in [fragments.list] *)

(** [waitFrames], the callback the handler passes to
    [requestAnimationFrame]: the new [frameCount], the calls, and whether the
    promise is resolved. *)
Definition waitFrames (frameCount : Z) : Z * list call * bool :=
  let frameCount := (frameCount + 1)%Z in
  if (frameCount <? 3)%Z then (frameCount, [requestAnimationFrame], false)
  else (frameCount, [], true).

(** [n] animation frames after the handler's own [requestAnimationFrame]. *)
Fixpoint wait (n : nat) (frameCount : Z) : list call * bool :=
  match n with
  | O => ([], false)
  | S n' =>
      let '(frameCount, calls, resolved) := waitFrames frameCount in
      if resolved then (calls, true)
      else let '(calls', resolved') := wait n' frameCount in
           (calls ++ calls', resolved')
  end.

(** The handler up to the promise that waits for the frames; from there to
    [setTimeout]; the frame wait takes three frames. *)
Definition onItemSet_start (model : Model) : list call :=
  [ model_useCamera (modelId model);
    scene_add (modelId model);
    fragments_core_update true;
    requestAnimationFrame ].

Definition onItemSet_framed (model : Model) (st : Level) : Level * list call :=
  (adjustModelToLevel0 model st,
   [model_updateMatrixWorld (modelId model)] ++ frameModel model
   ++ [setTimeout 500]).

Definition onItemSet (model : Model) (st : Level) : Level * list call :=
  let '(st', calls) := onItemSet_framed model st in
  (st', onItemSet_start model ++ fst (wait 3 0) ++ calls).

(** The [setTimeout] callback of the handler: the state it leaves in
    [floorViews], [filterState] and [storeyData]. *)
Record Deferred : Type := mkDeferred {
  floorViews : list View;
  filterState : FilterState;
  storeyData : list ItemData;
}.

Definition onItemSet_deferred (fragments_list : list Model)
    (createFromIfcStoreys : outcome (list View)) (classifier : Classifier)
    (st : Deferred) : Deferred * list call :=
  let '(views, calls1) :=
    generateFloorPlans fragments_list createFromIfcStoreys (floorViews st) in
  let '(fs, calls2) :=
    processClassifications fragments_list classifier (filterState st) in
  let '(fs, calls3) := hideIfcSpaces fragments_list classifier fs in
  (mkDeferred views fs (updateStoreyData fragments_list),
   calls1 ++ calls2 ++ calls3).

(** ** Statements about clipping *)

(** The face of a box that a clipping plane lies on: the point is in the
    box, and the whole box is on the side of the plane its normal points
    to. *)
Definition on_face (b : Box3) (normal point : Vector3) : Prop :=
  containsPoint b point
  ∧ ∀ q, containsPoint b q → dot normal point <= dot normal q.

(** Six planes requested by normal and point that box in [b]: one per axis
    direction, each on the face of [b] its normal points away from. *)
Definition boxed_by (b : Box3) (requests : list plane_request) : Prop :=
  ∃ top bottom front back right left : Vector3,
    requests
    = [ from_normal_and_point (mkVector3 0 (-1) 0) top;
        from_normal_and_point (mkVector3 0 1 0) bottom;
        from_normal_and_point (mkVector3 0 0 (-1)) front;
        from_normal_and_point (mkVector3 0 0 1) back;
        from_normal_and_point (mkVector3 (-1) 0 0) right;
        from_normal_and_point (mkVector3 1 0 0) left ]
    ∧ on_face b (mkVector3 0 (-1) 0) top
    ∧ on_face b (mkVector3 0 1 0) bottom
    ∧ on_face b (mkVector3 0 0 (-1)) front
    ∧ on_face b (mkVector3 0 0 1) back
    ∧ on_face b (mkVector3 (-1) 0 0) right
    ∧ on_face b (mkVector3 1 0 0) left.

(** ** Statements about camera framing *)



(** The diagonal of a box of this size is between 0.1 and 10000. *)
Definition in_range (size : Vector3) : Prop :=
  0.1 * 0.1 <= lengthSq size ∧ lengthSq size <= 10000 * 10000.

(** ** Statements about the viewer's own arithmetic *)

(** The elevations carried by a list of item data. *)
Definition elevations (data : list ItemData) : list number :=
  omap (fun attributes => has_value (Elevation attributes)) data.

(** The names carried by a list of item data. *)
Definition names_of (data : list ItemData) : list string :=
  omap (fun attributes => has_value (Name attributes)) data.


(** Repositioning as parameter plumbing: the height given to the model is
    one it had, or one the library handed over (the coordination height or
    the elevation of a storey). *)
Definition position_from_library : Prop :=
  ∀ model st,
    let y' := position_y (adjustModelToLevel0 model st) in
    y' == position_y st
    ∨ (∃ h, getCoordinates model = Returns h ∧ y' == h)
    ∨ (∃ localIds data e,
         getItemsData model localIds = Returns data
         ∧ e ∈ elevations data ∧ y' == e).



(** ** Statements about loading *)

(** The file an event hands to the page: [files[0]]. *)
Definition chosen (e : event) : option File :=
  match e with
  | file_chosen files | file_dropped files => head files
  | _ => None
  end.

(** Every load the trace asks of the library is of the bytes of one of the
    files, unchanged, uncoordinated and under the file's name less its
    first ".ifc". *)
Definition loads_from (files : list File) (calls : list call) : Prop :=
  ∀ buffer coordinate name',
    ifcLoader_load buffer coordinate name' ∈ calls →
    ∃ file, file ∈ files ∧ buffer = contents file ∧ coordinate = false
            ∧ name' = replace ".ifc" "" (name file).

(** The page is idle with the overlay hidden, or one invocation of
    [loadIfcFromFile] is parked and [isLoading] is set; a parked read is of
    one of the files. *)
Definition one_load_at_most (files : list File) (p : Page) : Prop :=
  match parked p with
  | [] =>
      isLoading (loading p) = false
      ∧ display (loadingOverlay (loading p)) = "none"
  | [k] =>
      isLoading (loading p) = true
      ∧ ∀ file, k = await_arrayBuffer file → file ∈ files
  | _ => False
  end.

Definition error_alert : call :=
  alert "Erro ao carregar o arquivo IFC. Verifique o console.".




(** ** Sample data

    A 10 x 7 x 4 model with two storeys, at elevations 3 and -2, whose
    coordination height is 100. *)
Definition sample_box : Box3 := mkBox3 (mkVector3 0 0 0) (mkVector3 10 7 4).

Definition sample_storeys : list ItemData :=
  [ mkItemData (object_with_value "Terreo") (object_with_value 3);
    mkItemData (object_with_value "Subsolo") (object_with_value (-2)) ].

Definition sample_model : Model :=
  mkModel "casa" (Returns sample_box) (Returns 100)
    (Returns [("IFCBUILDINGSTOREY", [1%N; 2%N])])
    (fun _ => Returns sample_storeys).

Definition sample_file : File :=
  mkFile "casa.ifc" [Byte.x49; Byte.x53; Byte.x4f].

(** Two storeys and two categories of the sample model, the basement and
    the spaces unchecked. *)
Definition sample_classifier : Classifier :=
  mkClassifier
    (Some [ ("Terreo", [("casa", [1%N; 2%N])]);
            ("Subsolo", [("casa", [3%N])]) ])
    (Some [ ("IFCWALL", [("casa", [1%N; 3%N])]);
            ("IFCSPACE", [("casa", [2%N; 4%N])]) ]).

Definition sample_filters : FilterState :=
  mkFilterState (<["Terreo":=true]> (<["Subsolo":=false]> ∅))
                (<["IFCWALL":=true]> (<["IFCSPACE":=false]> ∅)).

(** ** Statement about rendering *)

(** Rendering left to the library: neither at start-up nor on any later
    frame does the viewer build a scene, camera or renderer of three.js
    itself, or draw with one. *)
Definition rendering_delegated : Prop :=
  ∀ n c, c ∈ startup ++ frames n → own_rendering c = false.

(** * Further parts of the viewer *)

(** ** The storeys of several models *)

(** The item data of the storeys of all loaded models, in load order, as
    the outer loop of [updateStoreyData] comes by them. *)
Fixpoint storeys_of_models (models : list Model) : outcome (list ItemData) :=
  match models with
  | [] => Returns []
  | model :: rest =>
      match getItemsOfCategories model with
      | Throws => Throws
      | Returns storeys =>
          match getItemsData model (Object_values_flat storeys) with
          | Throws => Throws
          | Returns data =>
              match storeys_of_models rest with
              | Throws => Throws
              | Returns data' => Returns (data ++ data')
              end
          end
      end
  end.

(** The order [allStoreyData.sort] establishes. *)
Definition by_elevation (a b : ItemData) : Prop :=
  elevation_or_0 a <= elevation_or_0 b.

(** ** The grid-level dropdown *)


(** ** The list of models and their visibility *)

(** An entry of [fragments.list]: its key and [model.object.visible]. *)
Record Entry : Type := mkEntry { key : string; object_visible : bool }.

(** [fragments.list], in iteration order, and [modelVisibilityState]. *)
Record ModelList : Type := mkModelList {
  entries : list Entry;
  modelVisibilityState : gmap string bool;
}.

(** [model.object.visible = v] on the entry under a key. *)
Definition set_object_visible (modelId : string) (v : bool)
    (l : list Entry) : list Entry :=
  map (fun e => if String.eqb (key e) modelId then mkEntry (key e) v else e) l.

Definition toggleModelVisibility (modelId : string) (v : bool)
    (st : ModelList) : ModelList :=
  if existsb (fun e => String.eqb (key e) modelId) (entries st)
  then mkModelList (set_object_visible modelId v (entries st))
         (<[modelId:=v]> (modelVisibilityState st))
  else st.

(** The loop shared by [showAllModels] and [hideAllModels]. *)
Definition set_all (v : bool) (st : ModelList) : ModelList :=
  mkModelList (map (fun e => mkEntry (key e) v) (entries st))
    (fold_left (fun m e => <[key e:=v]> m) (entries st)
       (modelVisibilityState st)).

Definition showAllModels : ModelList -> ModelList := set_all true.
Definition hideAllModels : ModelList -> ModelList := set_all false.

(** [clearModels], on the list and the visibility state. *)
Definition clearModels (st : ModelList) : ModelList := mkModelList [] ∅.

(** [modelVisibilityState.get(modelId) !== false] *)
Definition isVisible (state : gmap string bool) (modelId : string) : bool :=
  match state !! modelId with
  | Some false => false
  | _ => true
  end.

(** [updateModelsList]: for each model, in order, the name shown,
    [modelId || `Modelo ${index + 1}`], and whether its checkbox is
    checked. *)
Definition updateModelsList (st : ModelList) : list (string * bool) :=
  imap (fun index e =>
          (if String.eqb (key e) EmptyString
           then "Modelo " +:+ pretty (S index) else key e,
           isVisible (modelVisibilityState st) (key e)))
       (entries st).

(** Checkboxes and models agree: the keys are those of a map, and the
    checkbox of each model would be drawn checked exactly if the model is
    visible. *)
Definition in_step (st : ModelList) : Prop :=
  NoDup (map key (entries st))
  ∧ ∀ e, e ∈ entries st →
         isVisible (modelVisibilityState st) (key e) = object_visible e.

(** ** Floor-plan views: opening and closing *)

#[global] Instance Q_eq_dec : EqDecision Q.
Proof. solve_decision. Defined.

#[global] Instance viewId_eq_dec : EqDecision viewId.
Proof. solve_decision. Defined.

(** The value of the floor dropdown: its placeholder option, whose value is
    the empty string, or the id of a view. *)
Inductive dropdown_value : Type :=
| placeholder
| option_value (view : viewId).

(** [!viewId]: the placeholder, or a view named by the empty string. *)
Definition no_view (value : dropdown_value) : bool :=
  match value with
  | placeholder => true
  | option_value (IfcStorey name') => String.eqb name' EmptyString
  | option_value _ => false
  end.

Inductive projection : Type :=
| Perspective
| Orthographic.

(** [minPolarAngle] is always 0; [maxPolarAngle] is [Math.PI] or 0. *)
Inductive maxPolarAngle : Type :=
| Math_PI
| zero.

Record PlanState : Type := mkPlanState {
  currentViewId : option viewId;
  grid_visible : bool;
  camera_projection : projection;
  controls_maxPolarAngle : maxPolarAngle;
}.

Inductive plan_call : Type :=
| views_close (view : viewId)
| views_open (view : viewId)
| plan_core_update
| plan_setLookAt (position target : Vector3)
| plan_fitToBox (box : Box3) (padding : Z)
| framing (c : call).

(** [if (currentViewId && views.list.has(currentViewId)) views.close(...)];
    what [views.close] throws is caught and logged. *)
Definition close_current (views_list : list viewId)
    (current : option viewId) : list plan_call :=
  match current with
  | Some c => if bool_decide (c ∈ views_list) then [views_close c] else []
  | None => []
  end.

(** [closePlantView]. *)
Definition closePlantView (views_list : list viewId)
    (fragments_list : list Model) (st : PlanState)
    : PlanState * list plan_call :=
  match currentViewId st with
  | None => (st, [])
  | Some _ =>
      (mkPlanState None true Perspective Math_PI,
       close_current views_list (currentViewId st)
       ++ match fragments_list with
          | model :: _ => map framing (frameModel model)
          | [] => [plan_setLookAt (mkVector3 50 30 50) (mkVector3 0 0 0)]
          end)
  end.

(** What an invocation of [openFloorPlan] waits for at its two awaits. *)
Inductive plan_await : Type :=
| await_setLookAt (box : Box3)
| await_fitToBox.

(** [openFloorPlan], up to its first await.  [views.open] is taken to
    return for a view of [views.list]. *)
Definition openFloorPlan (value : dropdown_value) (views_list : list viewId)
    (fragments_list : list Model) (st : PlanState)
    : PlanState * list plan_call * option plan_await :=
  match value with
  | placeholder => (closePlantView views_list fragments_list st, None)
  | option_value viewId =>
      if no_view value
      then (closePlantView views_list fragments_list st, None)
      else if negb (bool_decide (viewId ∈ views_list)) then (st, [], None)
      else
        let opened :=
          close_current views_list (currentViewId st)
          ++ [views_open viewId; plan_core_update] in
        let st' :=
          mkPlanState (Some viewId) false Orthographic
            (controls_maxPolarAngle st) in
        match first_model fragments_list with
        | None => (st', opened, None)
        | Some model =>
            match setFromObject model with
            | Throws => (st', opened, None)
            | Returns box =>
                let center := getCenter box in
                let size := getSize box in
                let maxDim := Math_max (x size) (z size) in
                let distance := maxDim * 1.2 in
                (st',
                 opened
                 ++ [ plan_setLookAt
                        (mkVector3 (x center) (y center + distance) (z center))
                        center ],
                 Some (await_setLookAt box))
            end
        end
  end.

(** [openFloorPlan] from an await on: after [setLookAt] it fits the box,
    after [fitToBox] it fixes the polar angle; a rejection ends it. *)
Definition openFloorPlan_resume (p : plan_await) (s : settlement)
    (st : PlanState) : PlanState * list plan_call * option plan_await :=
  match s, p with
  | rejected, _ => (st, [], None)
  | fulfilled, await_setLookAt box =>
      (st, [plan_fitToBox box 20], Some await_fitToBox)
  | fulfilled, await_fitToBox =>
      (mkPlanState (currentViewId st) (grid_visible st) (camera_projection st)
         zero, [], None)
  end.

(** The floor dropdown, "Voltar à Vista 3D" and the promises of the camera
    controls, in any order, against a list of views that stays as it is. *)
Inductive plan_event : Type :=
| select (value : dropdown_value)
| back_to_3D
| plan_settled (i : nat) (s : settlement).

Record Plan : Type := mkPlan {
  plan_state : PlanState;
  plan_parked : list plan_await;
  plan_trace : list plan_call;
}.

(** The page as it starts: [currentViewId = null], the grid visible, the
    camera in perspective and free to rotate. *)
Definition initial_plan : Plan :=
  mkPlan (mkPlanState None true Perspective Math_PI) [] [].

Definition plan_step (views_list : list viewId) (fragments_list : list Model)
    (page : Plan) (e : plan_event) : Plan :=
  match e with
  | select value =>
      let '(st, calls, p) :=
        openFloorPlan value views_list fragments_list (plan_state page) in
      mkPlan st (plan_parked page ++ option_list p) (plan_trace page ++ calls)
  | back_to_3D =>
      let '(st, calls) :=
        closePlantView views_list fragments_list (plan_state page) in
      mkPlan st (plan_parked page) (plan_trace page ++ calls)
  | plan_settled i s =>
      match plan_parked page !! i with
      | None => page
      | Some p =>
          let '(st, calls, p') := openFloorPlan_resume p s (plan_state page) in
          mkPlan st (delete i (plan_parked page) ++ option_list p')
            (plan_trace page ++ calls)
      end
  end.

Definition plan_run (views_list : list viewId) (fragments_list : list Model)
    (events : list plan_event) (page : Plan) : Plan :=
  fold_left (plan_step views_list fragments_list) events page.

(** The view left open by a sequence of calls, and whether the sequence
    ever opens a view while another is open ([None] when it does). *)
Definition open_step (acc : option (option viewId)) (c : plan_call)
    : option (option viewId) :=
  match acc, c with
  | None, _ => None
  | Some None, views_open v => Some (Some v)
  | Some (Some _), views_open _ => None
  | Some _, views_close _ => Some None
  | Some o, _ => Some o
  end.

Definition open_view (calls : list plan_call) : option (option viewId) :=
  fold_left open_step calls (Some None).

(** ** The view cube: clicks on its faces *)





(** ** The drop zone *)

(** The variable [dropZone] (whether it holds an element) and the drop-zone
    elements in the document body. *)
Record DropZone : Type := mkDropZone {
  dropZone : bool;
  zones_in_body : nat;
}.

Inductive drag_event : Type :=
| dragover
| dragleave (inside : bool)   (* [container.contains(e.relatedTarget)] *)
| dropped.

Definition drag_step (st : DropZone) (e : drag_event) : DropZone :=
  match e with
  | dragover =>
      if dropZone st then st else mkDropZone true (S (zones_in_body st))
  | dragleave inside =>
      if dropZone st && negb inside
      then mkDropZone false (pred (zones_in_body st))
      else st
  | dropped =>
      if dropZone st then mkDropZone false (pred (zones_in_body st)) else st
  end.

(** ** Hovering *)

Inductive hover_call : Type :=
| originalHover
| onHoverEnded_trigger.

(** A string or [null] or [undefined] used as a condition. *)
Definition truthy (s : option string) : bool :=
  match s with
  | Some s' => negb (String.eqb s' EmptyString)
  | None => false
  end.

(** The replacement of [hoverer.hover].  [result] is what [castRay]
    resolves to, [None] for [null], and within it
    [result.fragments?.modelId]; [models] gives [model.object.visible] for
    the keys of [fragments.list]. *)
Definition hover (enabled has_world : bool) (result : option (option string))
    (models : gmap string bool) (lastHoveredModel : option string)
    : option string * list hover_call :=
  if negb enabled then (lastHoveredModel, [])
  else if negb has_world then (lastHoveredModel, [])
  else
    match result with
    | None => (None, [originalHover])
    | Some modelId =>
        let invisible :=
          match modelId with
          | Some m =>
              truthy modelId
              && match models !! m with
                 | Some true => false
                 | _ => true
                 end
          | None => false
          end in
        if invisible
        then if truthy lastHoveredModel then (None, [onHoverEnded_trigger])
             else (lastHoveredModel, [])
        else (modelId, [originalHover])
    end.

(** Hovers one after the other, each with the visibility of the models at
    its time and what its ray hits. *)
Definition hover_step (acc : option string * list hover_call)
    (input : gmap string bool * option (option string))
    : option string * list hover_call :=
  let out := hover true true (snd input) (fst input) (fst acc) in
  (fst out, snd acc ++ snd out).

Definition hover_run (inputs : list (gmap string bool * option (option string)))
    (lastHoveredModel : option string) : option string * list hover_call :=
  fold_left hover_step inputs (lastHoveredModel, []).

(** No two triggers of [onHoverEnded] follow each other. *)
Fixpoint no_double_trigger (calls : list hover_call) : Prop :=
  match calls with
  | a :: (b :: _) as rest =>
      ¬ (a = onHoverEnded_trigger ∧ b = onHoverEnded_trigger)
      ∧ no_double_trigger rest
  | _ => True
  end.

(** ** The name of a screenshot *)

(** [.replace(/[:.]/g, "-")] and [.slice(0, 19)]. *)
Definition dash (c : ascii) : ascii :=
  if (Ascii.eqb c ":" || Ascii.eqb c ".")%bool then "-"%char else c.

Fixpoint replace_colons_dots (s : string) : string :=
  match s with
  | EmptyString => EmptyString
  | String c s' => String (dash c) (replace_colons_dots s')
  end.

Definition slice_0_19 (s : string) : string := String.substring 0 19 s.

(** [link.download], given what [new Date().toISOString()] returns. *)
Definition screenshot_name (toISOString : string) : string :=
  "screenshot-" +:+ slice_0_19 (replace_colons_dots toISOString) +:+ ".png".

(** ** Clicking "Criar Caixa de Corte" again *)

Fixpoint createClippingBox_times (k : nat) (fragments_list : list Model)
    (clippingBoxHelper : option BoxHelper) : option BoxHelper * list call :=
  match k with
  | O => (clippingBoxHelper, [])
  | S k' =>
      let '(helper, calls) := createClippingBox fragments_list clippingBoxHelper in
      let '(helper', calls') :=
        createClippingBox_times k' fragments_list helper in
      (helper', calls ++ calls')
  end.

(** The helpers in the scene after a trace, from [n] before it. *)
Definition helpers_step (n : nat) (c : call) : nat :=
  match c with
  | scene_add_helper => S n
  | scene_remove_helper => pred n
  | _ => n
  end.

Definition helpers_in_scene (calls : list call) (n : nat) : nat :=
  fold_left helpers_step calls n.

(** The helpers in the scene while a helper is held or not. *)
Definition held (clippingBoxHelper : option BoxHelper) : nat :=
  match clippingBoxHelper with
  | Some _ => 1%nat
  | None => 0%nat
  end.

(** ** Files the page takes up *)

(** The file an event hands on to [loadIfcFromFile]: the first chosen, or
    the first dropped if its name ends in ".ifc" in any letter case. *)
Definition accepted (e : event) : option File :=
  match e with
  | file_chosen files => head files
  | file_dropped files =>
      match files with
      | file :: _ =>
          if endsWith (toLowerCase (name file)) ".ifc" then Some file else None
      | [] => None
      end
  | _ => None
  end.

(** No character of the string is a dot. *)
Fixpoint dotless (s : string) : bool :=
  match s with
  | EmptyString => true
  | String c s' => negb (Ascii.eqb c ".") && dotless s'
  end.

(** * Properties *)

(** ** Numbers and boxes *)

Lemma ltb_lt (a b : number) : ltb a b = true ↔ a < b.
Proof.
  unfold ltb. rewrite negb_true_iff, <- not_true_iff_false, Qle_bool_iff.
  split; [apply Qnot_le_lt | apply Qlt_not_le].
Qed.

Lemma ltb_ge (a b : number) : ltb a b = false ↔ b <= a.
Proof.
  unfold ltb. rewrite negb_false_iff. apply Qle_bool_iff.
Qed.

Lemma nonempty_ordered (b : Box3) :
  isEmpty b = false →
  x (min b) <= x (max b) ∧ y (min b) <= y (max b) ∧ z (min b) <= z (max b).
Proof.
  unfold isEmpty. rewrite !orb_false_iff, !ltb_ge. tauto.
Qed.

Lemma Math_max_ge_l (a b : number) : a <= Math_max a b.
Proof.
  unfold Math_max. destruct (ltb a b) eqn:E.
  - apply ltb_lt in E. lra.
  - lra.
Qed.

Lemma Math_max_ge_r (a b : number) : b <= Math_max a b.
Proof.
  unfold Math_max. destruct (ltb a b) eqn:E.
  - lra.
  - apply ltb_ge in E. lra.
Qed.

(** ** Clipping box *)

Lemma createClippingBox_boxed (model : Model) (rest : list Model)
    (box : Box3) (helper : option BoxHelper) :
  setFromObject model = Returns box →
  isEmpty box = false →
  boxed_by (expandByScalar box margin)
    (planes (snd (createClippingBox (model :: rest) helper))).
Proof.
  intros Hbox Hne. unfold boxed_by.
  destruct (nonempty_ordered box Hne) as (Hx & Hy & Hz).
  unfold createClippingBox, first_model; simpl. rewrite Hbox.
  destruct helper; unfold planes;
    (simpl; do 6 eexists; split; [reflexivity|];
     unfold getCenter; rewrite Hne;
     repeat split; try intros q (? & ? & ?);
     unfold margin, dot in *; cbn in *; lra).
Qed.

(** C5. The viewer asks for clipping planes only through the library
    clipper: the double click in clipping mode through [create], the
    clipping box through [createFromNormalAndCoplanarPoint]; with no model
    loaded the clipping box asks for none.  Given a loaded model whose
    bounding box is not empty, "Criar Caixa de Corte" asks for exactly six
    planes; their normals are the six axis directions, and each plane lies
    on a face of the bounding box expanded by 0.5 on every side with its
    normal pointing into the box. *)
Theorem createClippingBox_six_planes :
  (∀ model rest box helper,
     setFromObject model = Returns box →
     isEmpty box = false →
     boxed_by (expandByScalar box margin)
       (planes (snd (createClippingBox (model :: rest) helper))))
  ∧ (∀ helper, planes (snd (createClippingBox [] helper)) = [])
  ∧ planes onDblClick_clipping = [at_cursor]
  ∧ (∀ n, planes (onKeyDelete n) = [])
  ∧ planes onDeletePlanes = [].
Proof.
  split; [exact createClippingBox_boxed|].
  split; [reflexivity|]. split; [reflexivity|]. split; [|reflexivity].
  intros n. unfold onKeyDelete. now destruct (0 <? n)%nat.
Qed.

Lemma createClippingBox_six_planes_witness :
  setFromObject sample_model = Returns sample_box
  ∧ isEmpty sample_box = false
  ∧ boxed_by (expandByScalar sample_box margin)
      (planes (snd (createClippingBox [sample_model] None))).
Proof.
  split; [reflexivity|]. split; [reflexivity|].
  destruct createClippingBox_six_planes as (H & _).
  apply (H sample_model [] sample_box None); reflexivity.
Defined.

(** ** Camera framing *)



Lemma range_test (size : Vector3) :
  ltb (lengthSq size) (0.1 * 0.1) || ltb (10000 * 10000) (lengthSq size)
  = false ↔ in_range size.
Proof.
  unfold in_range. rewrite orb_false_iff, !ltb_ge. tauto.
Qed.


Lemma frameModel_in_range (model : Model) (box : Box3) :
  setFromObject model = Returns box → isEmpty box = false →
  in_range (getSize box) →
  let size := getSize box in
  let center := getCenter box in
  let maxDim := Math_max3 (x size) (y size) (z size) in
  frameModel model
  = [controls_setLookAt
       (mkVector3 (x center + maxDim * 1.8 * 0.6)
                  (y center + maxDim * 1.8 * 0.4)
                  (z center + maxDim * 1.8 * 0.8))
       center true].
Proof.
  intros H E R. apply range_test in R. unfold frameModel.
  rewrite H, E, R. reflexivity.
Qed.

Lemma Math_max3_bounds (a b c : number) :
  a <= Math_max3 a b c ∧ b <= Math_max3 a b c ∧ c <= Math_max3 a b c.
Proof.
  unfold Math_max3.
  pose proof (Math_max_ge_l a b). pose proof (Math_max_ge_r a b).
  pose proof (Math_max_ge_l (Math_max a b) c).
  pose proof (Math_max_ge_r (Math_max a b) c).
  repeat split; lra.
Qed.




(** ** Ground-floor normalisation *)

Lemma elevations_cons (a : ItemData) (data : list ItemData) :
  elevations (a :: data)
  = match has_value (Elevation a) with
    | Some e => e :: elevations data
    | None => elevations data
    end.
Proof. reflexivity. Qed.

Lemma lowest_step_cases (acc : bound * string) (item : ItemData) :
  match has_value (Elevation item) with
  | Some e =>
      if lt_bound e (fst acc) then fst (lowest_step acc item) = finite e
      else lowest_step acc item = acc
  | None => lowest_step acc item = acc
  end.
Proof.
  unfold lowest_step. destruct (has_value (Elevation item)) as [e|]; [|done].
  now destruct (lt_bound e (fst acc)).
Qed.

(** The scan of [adjustModelToLevel0] keeps a lower bound of what it has
    seen, taken from what it has seen. *)
Lemma lowest_step_fold (data : list ItemData) (acc : bound * string) :
  match fst (fold_left lowest_step data acc) with
  | Infinity => fst acc = Infinity ∧ elevations data = []
  | finite m =>
      (fst acc = finite m ∨ m ∈ elevations data)
      ∧ (∀ e, e ∈ elevations data → m <= e)
      ∧ (∀ a, fst acc = finite a → m <= a)
  end.
Proof.
  revert acc. induction data as [|item data IH]; intros acc; cbn [fold_left].
  - cbn. destruct (fst acc) as [|a] eqn:E; [done|].
    split; [now left|]. split; [intros e He; inversion He|].
    intros a' [= <-]. lra.
  - specialize (IH (lowest_step acc item)). rewrite elevations_cons.
    pose proof (lowest_step_cases acc item) as Hstep.
    destruct (has_value (Elevation item)) as [e|] eqn:Ee;
      [|rewrite Hstep in IH |- *; exact IH].
    destruct (lt_bound e (fst acc)) eqn:Lt.
    + rewrite Hstep in IH.
      destruct (fst (fold_left lowest_step data _)) as [|m].
      * now destruct IH.
      * destruct IH as (Hin & Hlow & Hacc). specialize (Hacc e eq_refl).
        split; [right; destruct Hin as [[= ->]|Hin]; [left|now right]|].
        split.
        -- intros e' [->|He']%elem_of_cons; [lra|auto].
        -- intros a Ha. rewrite Ha in Lt. simpl in Lt.
           apply ltb_lt in Lt. lra.
    + rewrite Hstep in IH |- *.
      destruct (fst acc) as [|a] eqn:Ea; [discriminate|].
      simpl in Lt. apply ltb_ge in Lt.
      destruct (fst (fold_left lowest_step data acc)) as [|m].
      * now destruct IH.
      * destruct IH as (Hin & Hlow & Hacc). specialize (Hacc a eq_refl).
        split; [destruct Hin as [Hin|Hin]; [now left|right; now right]|].
        split.
        -- intros e' [->|He']%elem_of_cons; [lra|auto].
        -- intros a' [= <-]. lra.
Qed.

Lemma lowest_minimum (data : list ItemData) :
  match fst (lowest data) with
  | Infinity => elevations data = []
  | finite m => m ∈ elevations data ∧ ∀ e, e ∈ elevations data → m <= e
  end.
Proof.
  pose proof (lowest_step_fold data (Infinity, EmptyString)) as H.
  unfold lowest. destruct (fst (fold_left _ _ _)) as [|m].
  - apply H.
  - destruct H as ([H|H] & Hlow & _); [discriminate|]. now split.
Qed.

Lemma adjustModelToLevel0_found (model : Model) (st : Level)
    (coordHeight : number) (storeys : list (string * list N))
    (data : list ItemData) (m : number) :
  getCoordinates model = Returns coordHeight →
  getItemsOfCategories model = Returns storeys →
  Object_values_flat storeys ≠ [] →
  getItemsData model (Object_values_flat storeys) = Returns data →
  fst (lowest data) = finite m →
  adjustModelToLevel0 model st = mkLevel (- (coordHeight + m)) m.
Proof.
  intros Hc Hs Hne Hd Hm. unfold adjustModelToLevel0.
  rewrite Hc, Hs. destruct (Object_values_flat storeys) eqn:E; [done|].
  simpl. now rewrite Hd, Hm.
Qed.

Lemma adjustModelToLevel0_no_storey (model : Model) (st : Level)
    (storeys : list (string * list N)) :
  getItemsOfCategories model = Returns storeys →
  Object_values_flat storeys = [] →
  adjustModelToLevel0 model st = st.
Proof.
  intros Hs He. unfold adjustModelToLevel0.
  destruct (getCoordinates model); [|done]. now rewrite Hs, He.
Qed.

Lemma adjustModelToLevel0_no_elevation (model : Model) (st : Level)
    (storeys : list (string * list N)) (data : list ItemData) :
  getItemsOfCategories model = Returns storeys →
  getItemsData model (Object_values_flat storeys) = Returns data →
  elevations data = [] →
  adjustModelToLevel0 model st = st.
Proof.
  intros Hs Hd He. unfold adjustModelToLevel0.
  destruct (getCoordinates model); [|done]. rewrite Hs.
  destruct (length _ =? 0)%nat; [done|]. rewrite Hd.
  pose proof (lowest_minimum data) as H.
  destruct (fst (lowest data)) as [|m]; [done|].
  destruct H as (H & _). rewrite He in H. inversion H.
Qed.

Lemma find_named_none (storeyData : list ItemData) (name : string) :
  (∀ a, a ∈ storeyData → has_value (Name a) ≠ Some name) →
  List.find (named name) storeyData = None.
Proof.
  induction storeyData as [|a l IH]; intros H; [done|]. simpl.
  unfold named at 1. destruct (has_value (Name a)) as [v|] eqn:E.
  - destruct (String.eqb_spec v name) as [->|_].
    + exfalso. apply (H a); [left|done].
    + apply IH. intros b Hb. apply H. now right.
  - apply IH. intros b Hb. apply H. now right.
Qed.

(** *** The storey data *)

Lemma named_true (name : string) (a : ItemData) :
  named name a = true ↔ has_value (Name a) = Some name.
Proof.
  unfold named. destruct (has_value (Name a)) as [v|]; [|done].
  destruct (String.eqb_spec v name) as [->|Hne]; [done|].
  split; [done|]. intros [= ->]. done.
Qed.

Lemma find_app {A} (f : A → bool) (l1 l2 : list A) :
  List.find f (l1 ++ l2)
  = match List.find f l1 with
    | Some a => Some a
    | None => List.find f l2
    end.
Proof.
  induction l1 as [|a l1 IH]; [done|]. simpl. now destruct (f a).
Qed.

Lemma find_named_is_Some (l : list ItemData) (name : string) :
  is_Some (List.find (named name) l) ↔ name ∈ names_of l.
Proof.
  unfold names_of. rewrite list_elem_of_omap. split.
  - intros (a & Ha). apply find_some in Ha as (Hin & Hn).
    exists a. split; [now apply list_elem_of_In | now apply named_true].
  - intros (a & Hin & Hn). destruct (List.find (named name) l) eqn:E; [done|].
    apply list_elem_of_In in Hin. apply (find_none _ _ E) in Hin.
    apply named_true in Hn. congruence.
Qed.

(** In a list whose names are all different, a name finds the one item that
    carries it. *)
Lemma find_named_unique (l : list ItemData) (name : string) (a : ItemData) :
  NoDup (names_of l) → a ∈ l → has_value (Name a) = Some name →
  List.find (named name) l = Some a.
Proof.
  induction l as [|b l IH]; intros Hnd Hin Hn; [inversion Hin|].
  simpl. unfold names_of in Hnd. simpl in Hnd.
  destruct (named name b) eqn:Eb.
  - apply elem_of_cons in Hin as [->|Hin]; [done|].
    apply named_true in Eb. rewrite Eb in Hnd.
    apply NoDup_cons in Hnd as (Hnot & _). exfalso. apply Hnot.
    apply list_elem_of_omap. now exists a.
  - apply elem_of_cons in Hin as [->|Hin].
    + apply named_true in Hn. congruence.
    + apply IH; [|done|done].
      destruct (has_value (Name b)); [now apply NoDup_cons in Hnd|done].
Qed.

Lemma insert_by_elevation_perm (a : ItemData) (l : list ItemData) :
  insert_by_elevation a l ≡ₚ a :: l.
Proof.
  induction l as [|b l IH]; [done|]. simpl.
  destruct (ltb _ _); [|done]. rewrite IH. apply Permutation_swap.
Qed.

Lemma sort_by_elevation_perm (l : list ItemData) : sort_by_elevation l ≡ₚ l.
Proof.
  induction l as [|a l IH]; [done|]. simpl.
  now rewrite insert_by_elevation_perm, IH.
Qed.

Lemma find_named_sorted (l : list ItemData) (name : string) :
  NoDup (names_of l) →
  List.find (named name) (sort_by_elevation l) = List.find (named name) l.
Proof.
  intros Hnd. pose proof (sort_by_elevation_perm l) as Hperm.
  destruct (List.find (named name) l) as [a|] eqn:E.
  - apply find_some in E as (Hin & Hn). apply find_named_unique.
    + unfold names_of. now rewrite Hperm.
    + rewrite Hperm. now apply list_elem_of_In.
    + now apply named_true.
  - assert (H : ¬ is_Some (List.find (named name) (sort_by_elevation l))).
    { rewrite find_named_is_Some. unfold names_of. rewrite Hperm.
      fold (names_of l). rewrite <- find_named_is_Some, E.
      now intros (? & ?). }
    destruct (List.find _ (sort_by_elevation l)); [|done].
    exfalso. now apply H.
Qed.

(** The inner loop of [updateStoreyData] keeps, of the items that carry a
    name, the first under each name. *)
Lemma collect_step_fold (data : list ItemData)
    (acc : list ItemData * gset string) (name : string) :
  NoDup (names_of (fst acc)) →
  (∀ n, n ∈ snd acc ↔ n ∈ names_of (fst acc)) →
  let acc' := fold_left collect_step data acc in
  NoDup (names_of (fst acc'))
  ∧ List.find (named name) (fst acc')
    = match List.find (named name) (fst acc) with
      | Some a => Some a
      | None => List.find (named name) data
      end.
Proof.
  revert acc. induction data as [|item data IH]; intros acc Hnd Hseen.
  - simpl. split; [done|]. now destruct (List.find _ _).
  - cbn [fold_left]. cbv zeta.
    assert (Hstep : NoDup (names_of (fst (collect_step acc item)))
              ∧ (∀ n, n ∈ snd (collect_step acc item)
                      ↔ n ∈ names_of (fst (collect_step acc item)))
              ∧ match List.find (named name) (fst (collect_step acc item)) with
                | Some a => Some a
                | None => List.find (named name) data
                end
                = match List.find (named name) (fst acc) with
                  | Some a => Some a
                  | None => List.find (named name) (item :: data)
                  end).
    { unfold collect_step. simpl. unfold named at 4.
      destruct (has_value (Name item)) as [v|] eqn:Ev; [|done].
      destruct (bool_decide (v ∈ snd acc)) eqn:Eseen.
      - apply bool_decide_eq_true in Eseen. split; [done|]. split; [done|].
        destruct (String.eqb_spec v name) as [->|Hne]; [|done].
        apply Hseen, find_named_is_Some in Eseen as (a & ->). done.
      - apply bool_decide_eq_false in Eseen. simpl.
        assert (Hnames : names_of (fst acc ++ [item])
                         = names_of (fst acc) ++ [v]).
        { unfold names_of. rewrite omap_app. simpl. now rewrite Ev. }
        rewrite Hnames. split; [|split].
        + apply NoDup_app. split; [done|]. split.
          * intros n Hn ->%list_elem_of_singleton. now apply Eseen, Hseen.
          * apply NoDup_singleton.
        + intros n. rewrite elem_of_union, elem_of_singleton, elem_of_app,
            list_elem_of_singleton, Hseen. tauto.
        + rewrite find_app. destruct (List.find (named name) (fst acc)); [done|].
          simpl. unfold named at 1. rewrite Ev.
          now destruct (String.eqb v name). }
    destruct Hstep as (Hnd' & Hseen' & Hfind).
    destruct (IH (collect_step acc item) Hnd' Hseen') as (IH1 & IH2).
    split; [exact IH1|]. now rewrite IH2.
Qed.

(** With one model loaded, a name finds in [storeyData] what it finds in the
    item data of the model's storeys. *)
Lemma updateStoreyData_find (model : Model) (storeys : list (string * list N))
    (data : list ItemData) (name : string) :
  getItemsOfCategories model = Returns storeys →
  getItemsData model (Object_values_flat storeys) = Returns data →
  List.find (named name) (updateStoreyData [model])
  = List.find (named name) data.
Proof.
  intros Hs Hd. unfold updateStoreyData, collect_models. rewrite Hs, Hd.
  destruct (collect_step_fold data ([], ∅) name) as (Hnd & Hfind).
  - apply NoDup_nil_2.
  - intros n. simpl. split; intros H; [now apply not_elem_of_empty in H|].
    inversion H.
  - rewrite find_named_sorted by exact Hnd. exact Hfind.
Qed.

Lemma getStoreyElevation_nonnegative (data : list ItemData) (m : number)
    (name : string) :
  (∀ e, e ∈ elevations data → m <= e) →
  0 <= getStoreyElevation data m name.
Proof.
  intros Hlow. unfold getStoreyElevation.
  destruct (List.find (named name) data) as [storey|] eqn:E; [|lra].
  destruct (has_value (Elevation storey)) as [e|] eqn:Ee; [|lra].
  apply find_some in E as (Hin & _). apply list_elem_of_In in Hin.
  assert (m <= e); [|lra]. apply Hlow. apply list_elem_of_omap.
  now exists storey.
Qed.

(** C10. For a model with at least one storey that carries an elevation,
    [adjustModelToLevel0] sets the model's Y position to minus the sum of
    the coordination height and the least storey elevation, and records
    that least elevation as [baseElevationOffset], so that no storey of the
    model is then below 0; [getStoreyElevation] returns the elevation of the
    storey found under the name minus [baseElevationOffset], and 0 for a
    name no storey carries; once [updateStoreyData] has run on the one
    loaded model, a name finds the first storey of the model that carries
    it; with no storey, or with no elevation on any storey, position and
    offset stay as they were. *)
Theorem adjustModelToLevel0_getStoreyElevation :
  (∀ model st coordHeight storeys data,
     getCoordinates model = Returns coordHeight →
     getItemsOfCategories model = Returns storeys →
     Object_values_flat storeys ≠ [] →
     getItemsData model (Object_values_flat storeys) = Returns data →
     elevations data ≠ [] →
     ∃ m, m ∈ elevations data ∧ (∀ e, e ∈ elevations data → m <= e)
          ∧ position_y (adjustModelToLevel0 model st) = - (coordHeight + m)
          ∧ baseElevationOffset (adjustModelToLevel0 model st) = m
          ∧ ∀ name, 0 <= getStoreyElevation (updateStoreyData [model]) m name)
  ∧ (∀ storeyData base name storey e,
       List.find (named name) storeyData = Some storey →
       has_value (Elevation storey) = Some e →
       getStoreyElevation storeyData base name = e - base)
  ∧ (∀ storeyData base name,
       (∀ a, a ∈ storeyData → has_value (Name a) ≠ Some name) →
       getStoreyElevation storeyData base name = 0)
  ∧ (∀ model storeys data base name,
       getItemsOfCategories model = Returns storeys →
       getItemsData model (Object_values_flat storeys) = Returns data →
       getStoreyElevation (updateStoreyData [model]) base name
       = getStoreyElevation data base name)
  ∧ (∀ model st storeys,
       getItemsOfCategories model = Returns storeys →
       Object_values_flat storeys = [] →
       adjustModelToLevel0 model st = st)
  ∧ (∀ model st storeys data,
       getItemsOfCategories model = Returns storeys →
       getItemsData model (Object_values_flat storeys) = Returns data →
       elevations data = [] →
       adjustModelToLevel0 model st = st).
Proof.
  assert (Hfind : ∀ model storeys data base name,
            getItemsOfCategories model = Returns storeys →
            getItemsData model (Object_values_flat storeys) = Returns data →
            getStoreyElevation (updateStoreyData [model]) base name
            = getStoreyElevation data base name).
  { intros model storeys data base name Hs Hd. unfold getStoreyElevation.
    now rewrite (updateStoreyData_find model storeys data name Hs Hd). }
  split.
  { intros model st coordHeight storeys data Hc Hs Hne Hd He.
    pose proof (lowest_minimum data) as Hmin.
    destruct (fst (lowest data)) as [|m] eqn:Hm; [done|].
    destruct Hmin as (Hin & Hlow). exists m.
    rewrite (adjustModelToLevel0_found model st coordHeight storeys data m)
      by assumption.
    repeat split; try done. intros name.
    rewrite (Hfind model storeys data m name Hs Hd).
    now apply getStoreyElevation_nonnegative. }
  split.
  { intros storeyData base name storey e Hfound He.
    unfold getStoreyElevation. now rewrite Hfound, He. }
  split.
  { intros storeyData base name Hnone. unfold getStoreyElevation.
    now rewrite (find_named_none storeyData name Hnone). }
  split; [exact Hfind|].
  split.
  - apply adjustModelToLevel0_no_storey.
  - apply adjustModelToLevel0_no_elevation.
Qed.

Lemma adjustModelToLevel0_getStoreyElevation_witness :
  (position_y (adjustModelToLevel0 sample_model (mkLevel 0 0)) == -98
   ∧ baseElevationOffset (adjustModelToLevel0 sample_model (mkLevel 0 0)) == -2)
  ∧ getStoreyElevation sample_storeys (-2) "Terreo" = 3 - -2
  ∧ getStoreyElevation sample_storeys (-2) "Cobertura" = 0.
Proof.
  destruct adjustModelToLevel0_getStoreyElevation as (Hadj & Hget & Hnone & _).
  split; [|split].
  - destruct (Hadj sample_model (mkLevel 0 0) 100
                [("IFCBUILDINGSTOREY"%string, [1%N; 2%N])] sample_storeys)
      as (m & Hin & Hlow & Hy & Hb & _); try reflexivity; try discriminate.
    rewrite Hy, Hb. clear Hy Hb.
    assert (m <= -2) by (apply Hlow; right; left).
    assert (m = 3 ∨ m = -2) as [->| ->].
    { apply elem_of_cons in Hin as [->|Hin]; [now left|].
      apply list_elem_of_singleton in Hin as ->. now right. }
    + lra.
    + split; reflexivity.
  - apply (Hget sample_storeys (-2) "Terreo"%string
             (mkItemData (object_with_value "Terreo"%string)
                (object_with_value 3)) 3); reflexivity.
  - apply Hnone. intros a Ha.
    apply elem_of_cons in Ha as [->|Ha]; [discriminate|].
    apply list_elem_of_singleton in Ha as ->. discriminate.
Defined.

(** ** Floor plans *)


Lemma generateFloorPlans_ifc (model : Model) (rest : list Model) (box : Box3)
    (ifcViews old : list View) :
  setFromObject model = Returns box → ifcViews ≠ [] →
  generateFloorPlans (model :: rest) (Returns ifcViews) old
  = (ifcViews,
     classifier_byIfcBuildingStorey
     :: map (λ view, views_list_delete (id view)) old
     ++ [views_createFromIfcStoreys 1.5]).
Proof.
  intros Hbox Hne. unfold generateFloorPlans, first_model. simpl.
  rewrite Hbox. destruct ifcViews; [done|]. reflexivity.
Qed.

Lemma generateFloorPlans_manual (model : Model) (rest : list Model)
    (box : Box3) (r : outcome (list View)) (old : list View) :
  setFromObject model = Returns box → r = Throws ∨ r = Returns [] →
  generateFloorPlans (model :: rest) r old
  = (manual_views box,
     (classifier_byIfcBuildingStorey
      :: map (λ view, views_list_delete (id view)) old
      ++ [views_createFromIfcStoreys 1.5])
     ++ map create_call (manual_views box)).
Proof.
  intros Hbox [-> | ->]; unfold generateFloorPlans, first_model; simpl;
    now rewrite Hbox.
Qed.


Lemma length_manual_views (box : Box3) :
  length (manual_views box)
  = S (Z.to_nat (numFloors_of (y (getSize box)))).
Proof.
  unfold manual_views. rewrite length_app, length_map, length_seqZ.
  simpl. lia.
Qed.









(** Nor is the height given to the sample model one the library handed
    over: it had 0, the coordination height is 100, the storeys are at 3
    and -2, and the viewer sets -98. *)
Lemma position_computed : ¬ position_from_library.
Proof.
  intros H. specialize (H sample_model (mkLevel 0 0)).
  destruct H as [H|[(h & Hh & H)|(ids & data & e & Hd & He & H)]].
  - vm_compute in H. discriminate H.
  - injection Hh as <-. vm_compute in H. discriminate H.
  - injection Hd as <-.
    apply elem_of_cons in He as [->|He]; [vm_compute in H; discriminate H|].
    apply list_elem_of_singleton in He as ->. vm_compute in H. discriminate H.
Qed.

(** ** Loading *)

Lemma loads_from_app (files : list File) (calls calls' : list call) :
  loads_from files calls → loads_from files calls' →
  loads_from files (calls ++ calls').
Proof.
  intros H H' b c n [Hin|Hin]%elem_of_app; [apply H | apply H']; exact Hin.
Qed.

Lemma loads_from_more (files files' : list File) (calls : list call) :
  loads_from files calls → loads_from (files ++ files') calls.
Proof.
  intros H b c n Hin. destruct (H b c n Hin) as (f & Hf & Hrest).
  exists f. split; [apply elem_of_app; now left | exact Hrest].
Qed.

Lemma loads_from_none (files : list File) (calls : list call) :
  (∀ b c n, ifcLoader_load b c n ∉ calls) → loads_from files calls.
Proof. intros H b c n Hin. now apply H in Hin. Qed.

(** A single call that is not a load. *)
Ltac not_a_load :=
  apply loads_from_none;
  let Hin := fresh in
  intros ? ? ? Hin; apply list_elem_of_singleton in Hin; discriminate Hin.

Lemma one_load_at_most_more (files files' : list File) (p : Page) :
  one_load_at_most files p → one_load_at_most (files ++ files') p.
Proof.
  unfold one_load_at_most. destruct (parked p) as [|k [|k' l]]; [done| |done].
  intros (H & Hf). split; [exact H|]. intros f Hk.
  apply elem_of_app. left. now apply Hf.
Qed.

(** A request to load: taken up when the page is idle, dropped when a load
    is parked. *)
Lemma loadIfcFromFile_step (files : list File) (p : Page) (file : File) :
  one_load_at_most files p → loads_from files (trace p) →
  let p' := started p (loadIfcFromFile file (loading p)) in
  one_load_at_most (files ++ [file]) p'
  ∧ loads_from (files ++ [file]) (trace p').
Proof.
  intros Hone Hloads p'. subst p'. unfold loadIfcFromFile, started.
  unfold one_load_at_most in *.
  destruct (parked p) as [|k [|k' l]] eqn:Hp; [| |done].
  - destruct Hone as (Hfalse & _). rewrite Hfalse. simpl.
    split.
    + split; [done|]. intros f [= <-]. apply elem_of_app. right. left.
    + apply loads_from_app; [now apply loads_from_more|].
      not_a_load.
  - destruct Hone as (Htrue & Hf). rewrite Htrue. simpl.
    split.
    + split; [done|]. intros f Hk. apply elem_of_app. left. now apply Hf.
    + rewrite app_nil_r. now apply loads_from_more.
Qed.

Lemma step_invariant (files : list File) (p : Page) (e : event) :
  one_load_at_most files p → loads_from files (trace p) →
  let files' := files ++ match chosen e with Some f => [f] | None => [] end in
  one_load_at_most files' (step p e) ∧ loads_from files' (trace (step p e)).
Proof.
  intros Hone Hloads files'. subst files'.
  assert (Hsame : ∀ l, one_load_at_most (files ++ l) p
                       ∧ loads_from (files ++ l) (trace p)).
  { intros l. split; [now apply one_load_at_most_more
                     | now apply loads_from_more]. }
  destruct e as [fs|fs|i r|progress]; simpl.
  - destruct fs as [|file fs]; simpl.
    + unfold started. simpl. rewrite !app_nil_r. now destruct p.
    + now apply loadIfcFromFile_step.
  - destruct fs as [|file fs]; simpl.
    + unfold started. simpl. rewrite !app_nil_r. now destruct p.
    + destruct (endsWith (toLowerCase (name file)) ".ifc").
      * now apply loadIfcFromFile_step.
      * unfold started. simpl. rewrite app_nil_r.
        destruct (Hsame [file]) as (H1 & H2). split; [exact H1|].
        apply loads_from_app; [exact H2|]. not_a_load.
  - rewrite app_nil_r. unfold one_load_at_most in *.
    destruct (parked p) as [|k [|k' l]] eqn:Hp; [| |done].
    + simpl. now rewrite Hp.
    + destruct i as [|i]; simpl; [|now rewrite Hp].
      destruct Hone as (Htrue & Hf).
      destruct r; [destruct k as [file|file|]|]; simpl.
      * split; [now split|]. apply loads_from_app; [exact Hloads|].
        intros b c n Hin. apply list_elem_of_singleton in Hin.
        injection Hin as -> -> ->. exists file. split; [now apply Hf|done].
      * split; [now split|]. apply loads_from_app; [exact Hloads|].
        not_a_load.
      * split; [now split|]. now rewrite app_nil_r.
      * split; [now split|]. apply loads_from_app; [exact Hloads|].
        not_a_load.
  - rewrite app_nil_r. destruct (existsb is_await_load (parked p)); [|done].
    split; [|exact Hloads]. unfold one_load_at_most in *. simpl.
    destruct (parked p) as [|k [|k' l]]; [|exact Hone|done].
    now destruct Hone.
Qed.

Lemma run_invariant (events : list event) (files : list File) (p : Page) :
  one_load_at_most files p → loads_from files (trace p) →
  one_load_at_most (files ++ omap chosen events) (run events p)
  ∧ loads_from (files ++ omap chosen events) (trace (run events p)).
Proof.
  revert files p. induction events as [|e events IH]; intros files p H1 H2.
  - simpl. rewrite app_nil_r. now split.
  - destruct (step_invariant files p e H1 H2) as (H1' & H2').
    specialize (IH _ _ H1' H2'). simpl.
    rewrite <- app_assoc in IH.
    destruct (chosen e); exact IH.
Qed.

Lemma initial_invariant :
  one_load_at_most [] initial_page ∧ loads_from [] (trace initial_page).
Proof.
  split; [now split|]. intros b c n Hin. inversion Hin.
Qed.



Lemma run_app (events events' : list event) (p : Page) :
  run (events ++ events') p = run events' (run events p).
Proof. apply fold_left_app. Qed.

Lemma run_progress (ps : list number) (p : Page) :
  let p' := run (map progress_reported ps) p in
  parked p' = parked p ∧ trace p' = trace p
  ∧ isLoading (loading p') = isLoading (loading p)
  ∧ display (loadingOverlay (loading p'))
    = display (loadingOverlay (loading p)).
Proof.
  revert p. induction ps as [|q ps IH]; intros p; [done|]. cbv zeta.
  change (run (map progress_reported (q :: ps)) p)
    with (run (map progress_reported ps) (step p (progress_reported q))).
  destruct (IH (step p (progress_reported q))) as (H1 & H2 & H3 & H4).
  rewrite H1, H2, H3, H4. simpl.
  now destruct (existsb is_await_load (parked p)).
Qed.

Lemma elem_of_two {A} (a b c : A) : a ∈ [b; c] ↔ a = b ∨ a = c.
Proof.
  rewrite elem_of_cons, list_elem_of_singleton. tauto.
Qed.

Lemma elem_of_three {A} (a b c d : A) : a ∈ [b; c; d] ↔ a = b ∨ a = c ∨ a = d.
Proof.
  rewrite elem_of_cons, elem_of_two. tauto.
Qed.

(** C8. [loadIfcFromFile] is guarded and cleans up after itself: called
    while [isLoading] is set it returns at once, with no call made and the
    state as it was; called otherwise it runs to its end whichever way its
    three promises are settled and whatever progress the library reports,
    and then [isLoading] is unset and the overlay hidden; the error alert
    is shown exactly when a promise was rejected.  On the page as a whole,
    at every moment either no load is parked, [isLoading] unset and the
    overlay hidden, or exactly one is parked and [isLoading] set. *)
Theorem loadIfcFromFile_guarded_self_cleaning :
  (∀ file st, isLoading st = true → loadIfcFromFile file st = (st, [], None))
  ∧ (∀ file st r1 r2 r3 ps,
       isLoading st = false →
       let p := run ([file_chosen [file]; settled 0 r1]
                     ++ map progress_reported ps
                     ++ [settled 0 r2; settled 0 r3])
                  (mkPage st [] []) in
       parked p = []
       ∧ isLoading (loading p) = false
       ∧ display (loadingOverlay (loading p)) = "none"
       ∧ (error_alert ∈ trace p
          ↔ ¬ (r1 = fulfilled ∧ r2 = fulfilled ∧ r3 = fulfilled)))
  ∧ (∀ events, one_load_at_most (omap chosen events) (run events initial_page)).
Proof.
  split; [|split].
  - intros file st H. unfold loadIfcFromFile. now rewrite H.
  - intros file st r1 r2 r3 ps Hidle p. subst p. rewrite !run_app.
    set (p2 := run [file_chosen [file]; settled 0 r1] (mkPage st [] [])).
    pose proof (run_progress ps p2) as (Hparked & Htrace & Hflag & Hshown).
    set (p3 := run (map progress_reported ps) p2) in *.
    assert (Hp2 : parked p2
                  = match r1 with
                    | fulfilled => [await_load file]
                    | rejected => []
                    end
                  ∧ trace p2
                    = file_arrayBuffer file
                      :: match r1 with
                         | fulfilled =>
                             [ifcLoader_load (contents file) false
                                (replace ".ifc" "" (name file))]
                         | rejected => [error_alert]
                         end
                  ∧ (r1 = rejected →
                     isLoading (loading p2) = false
                     ∧ display (loadingOverlay (loading p2)) = "none")).
    { subst p2. unfold run. simpl. unfold loadIfcFromFile.
      rewrite Hidle. now destruct r1. }
    destruct Hp2 as (Hp2 & Ht2 & Hl2).
    rewrite Hp2 in Hparked. rewrite Ht2 in Htrace.
    clearbody p3. destruct p3 as [st3 parked3 trace3].
    simpl in Hparked, Htrace, Hflag, Hshown. subst parked3 trace3.
    unfold error_alert.
    destruct r1; [|destruct (Hl2 eq_refl) as (Hf & Hs)];
      destruct r2, r3; simpl;
      (split; [done|]); (split; [congruence|]); (split; [congruence|]);
      rewrite ?elem_of_cons, ?elem_of_nil; split; intros H;
      try (intros (? & ? & ?); discriminate);
      try (exfalso; apply H; done);
      try (repeat destruct H as [H|H]; try discriminate H; done);
      tauto.
  - intros events. destruct initial_invariant as (H1 & H2).
    now destruct (run_invariant events [] initial_page H1 H2).
Qed.

Lemma loadIfcFromFile_guarded_self_cleaning_witness :
  isLoading (mkLoading true (loadingOverlay initial_loading)) = true
  ∧ loadIfcFromFile sample_file (mkLoading true (loadingOverlay initial_loading))
    = (mkLoading true (loadingOverlay initial_loading), [], None)
  ∧ isLoading initial_loading = false
  ∧ let p := run ([file_chosen [sample_file]; settled 0 fulfilled]
                  ++ map progress_reported [0.5]
                  ++ [settled 0 rejected; settled 0 fulfilled])
               (mkPage initial_loading [] []) in
    parked p = []
    ∧ isLoading (loading p) = false
    ∧ display (loadingOverlay (loading p)) = "none"
    ∧ (error_alert ∈ trace p
       ↔ ¬ (fulfilled = fulfilled ∧ rejected = fulfilled
            ∧ fulfilled = fulfilled)).
Proof.
  destruct loadIfcFromFile_guarded_self_cleaning as (Hguard & Hend & _).
  split; [reflexivity|]. split; [now apply Hguard|]. split; [reflexivity|].
  exact (Hend sample_file initial_loading fulfilled rejected fulfilled [0.5]
           eq_refl).
Defined.

(** ** Concurrency *)







(** It fails on scheduling as well: the handler of a newly set model
    requests an animation frame. *)
Lemma viewer_schedules :
  ¬ ∀ model st c,
      c ∈ snd (onItemSet model st) →
      c ≠ requestAnimationFrame ∧ ∀ ms, c ≠ setTimeout ms.
Proof.
  intros H.
  destruct (H sample_model (mkLevel 0 0) requestAnimationFrame) as (Hc & _).
  - vm_compute. do 3 right. left.
  - now apply Hc.
Qed.

(** ** Classification and filters *)

Lemma register_lookup (filterMap : gmap string bool) (name n : string) :
  register filterMap name !! n
  = match filterMap !! n with
    | Some b => Some b
    | None => if decide (n = name) then Some true else None
    end.
Proof.
  unfold register. destruct (filterMap !! name) eqn:E.
  - destruct (filterMap !! n) eqn:En; [done|].
    destruct (decide (n = name)) as [->|]; [congruence|done].
  - destruct (decide (n = name)) as [->|Hne].
    + now rewrite lookup_insert_eq, E.
    + rewrite lookup_insert_ne by done. now destruct (filterMap !! n).
Qed.

Lemma register_names_lookup (names : list string)
    (filterMap : gmap string bool) (n : string) :
  fold_left register names filterMap !! n
  = match filterMap !! n with
    | Some b => Some b
    | None => if decide (n ∈ names) then Some true else None
    end.
Proof.
  revert filterMap. induction names as [|name names IH]; intros filterMap.
  - cbn [fold_left]. destruct (filterMap !! n); [done|].
    destruct (decide (n ∈ [])) as [H|_]; [inversion H|done].
  - cbn [fold_left]. rewrite IH, register_lookup.
    destruct (filterMap !! n) eqn:E; [done|].
    destruct (decide (n = name)) as [->|Hne].
    + destruct (decide (name ∈ name :: names)) as [_|H]; [done|].
      exfalso. apply H. left.
    + destruct (decide (n ∈ names)) as [Hin|Hnin],
        (decide (n ∈ name :: names)) as [Hin'|Hnin']; try done.
      * exfalso. apply Hnin'. now right.
      * apply elem_of_cons in Hin' as [?|?]; contradiction.
Qed.

Lemma register_all_lookup (c : option Classification)
    (filterMap : gmap string bool) (n : string) :
  register_all c filterMap !! n
  = match filterMap !! n with
    | Some b => Some b
    | None => if decide (n ∈ map fst (groups_of c)) then Some true else None
    end.
Proof.
  destruct c as [groups|]; simpl.
  - apply register_names_lookup.
  - destruct (filterMap !! n); [done|].
    destruct (decide (n ∈ [])) as [H|_]; [inversion H|done].
Qed.

(** C4. To classify a loaded model the viewer asks the library classifier
    for exactly two things, [byIfcBuildingStorey] then [byCategory], and
    with no model it asks nothing.  It groups nothing itself: afterwards a
    storey or category filter exists exactly for the names it had and the
    group names of the library's classifications, a filter it had keeps
    its state, and a new one starts checked. *)
Theorem processClassifications_pass_through :
  (∀ classifier fs, processClassifications [] classifier fs = (fs, []))
  ∧ (∀ model rest classifier fs,
       snd (processClassifications (model :: rest) classifier fs)
       = [classifier_byIfcBuildingStorey; classifier_byCategory])
  ∧ (∀ model rest classifier fs name,
       let fs' := fst (processClassifications (model :: rest) classifier fs) in
       storeys fs' !! name
       = match storeys fs !! name with
         | Some b => Some b
         | None =>
             if decide (name ∈ map fst (groups_of (Storeys classifier)))
             then Some true else None
         end
       ∧ categories fs' !! name
         = match categories fs !! name with
           | Some b => Some b
           | None =>
               if decide (name ∈ map fst (groups_of (Categories classifier)))
               then Some true else None
           end).
Proof.
  split; [reflexivity|]. split; [reflexivity|].
  intros model rest classifier fs name. simpl.
  split; apply register_all_lookup.
Qed.

Lemma hidden_after_app (model : string) (calls calls' : list call)
    (hidden : gset N) :
  hidden_after model (calls ++ calls') hidden
  = hidden_after model calls' (hidden_after model calls hidden).
Proof. apply fold_left_app. Qed.

Lemma in_group_cons (e : N) (entry : string * list N) (itemsMap : ItemsMap) :
  in_group e (entry :: itemsMap) ↔ e ∈ snd entry ∨ in_group e itemsMap.
Proof.
  unfold in_group. simpl. split.
  - intros (ids & Hids & He).
    apply elem_of_cons in Hids as [->|Hids]; [now left|].
    right. now exists ids.
  - intros [He|(ids & Hids & He)].
    + exists (snd entry). split; [left|done].
    + exists ids. split; [now right|done].
Qed.

Lemma in_group_nil (e : N) : ¬ in_group e [].
Proof. intros (ids & Hids & _). inversion Hids. Qed.

Lemma hide_group_hidden (model : string) (itemsMap : ItemsMap)
    (hidden : gset N) (e : N) :
  e ∈ hidden_after model (hide_group model itemsMap) hidden
  ↔ e ∈ hidden ∨ in_group e itemsMap.
Proof.
  revert hidden. induction itemsMap as [|entry itemsMap IH]; intros hidden.
  - simpl. pose proof (in_group_nil e). tauto.
  - unfold hide_group in *. simpl. rewrite IH, in_group_cons.
    unfold hidden_after, visibility_step, setVisible.
    rewrite String.eqb_refl, elem_of_union, elem_of_list_to_set. tauto.
Qed.

Lemma hide_unchecked_hidden (model : string) (c : option Classification)
    (filterMap : gmap string bool) (hidden : gset N) (e : N) :
  e ∉ hidden_after model (hide_unchecked model c filterMap) hidden
  ↔ (e ∉ hidden) ∧ all_checked e c filterMap.
Proof.
  unfold all_checked, hide_unchecked. destruct c as [groups|]; simpl.
  2:{ split; [intros H; split; [done|]; intros g Hg; inversion Hg | tauto]. }
  revert hidden. induction groups as [|g groups IH]; intros hidden.
  - simpl. split; [intros H; split; [done|]; intros g Hg; inversion Hg|tauto].
  - simpl. rewrite hidden_after_app, IH.
    assert (Hg : e ∉ hidden_after model
                     (if negb (checked filterMap (fst g))
                      then hide_group model (snd g) else []) hidden
                 ↔ (e ∉ hidden)
                   ∧ (in_group e (snd g) → checked filterMap (fst g) = true)).
    { destruct (checked filterMap (fst g)); simpl.
      - tauto.
      - rewrite hide_group_hidden. split.
        + intros H. split; [tauto|]. intros Hin. tauto.
        + intros (H1 & H2) [H|H]; [tauto|]. now apply H2 in H. }
    rewrite Hg. split.
    + intros ((Hh & Hthis) & Hrest). split; [done|].
      intros g' Hg'. apply elem_of_cons in Hg' as [->|Hg']; auto.
    + intros (Hh & Hall). split; [split; [done|]|].
      * apply Hall. left.
      * intros g' Hg'. apply Hall. now right.
Qed.

Lemma in_group_flat (e : N) (itemsMap : ItemsMap) :
  e ∈ concat (map snd itemsMap) ↔ in_group e itemsMap.
Proof.
  induction itemsMap as [|entry itemsMap IH]; simpl.
  - split; [intros H; inversion H | intros H; now apply in_group_nil in H].
  - rewrite elem_of_app, in_group_cons, IH. tauto.
Qed.

Lemma collect_allIds_classified (c : option Classification) (e : N) :
  e ∈ collect_allIds c ↔ classified e c.
Proof.
  unfold classified, collect_allIds. destruct c as [groups|]; simpl.
  2:{ split; [intros H; inversion H | intros (g & Hg & _); inversion Hg]. }
  induction groups as [|g groups IH]; simpl.
  - split; [intros H; inversion H | intros (g & Hg & _); inversion Hg].
  - rewrite elem_of_app, IH, in_group_flat. split.
    + intros [H|(g' & Hg' & Hin)].
      * exists g. split; [left|done].
      * exists g'. split; [now right|done].
    + intros (g' & Hg' & Hin).
      apply elem_of_cons in Hg' as [->|Hg']; [now left|].
      right. now exists g'.
Qed.

Lemma show_all_hidden (model : string) (allIds : list N) (hidden : gset N)
    (e : N) :
  e ∉ hidden_after model
        (if (0 <? length allIds)%nat
         then [model_setVisible model allIds true] else [])
        hidden
  ↔ e ∈ allIds ∨ e ∉ hidden.
Proof.
  destruct allIds as [|i ids].
  - cbn. split; [now right|]. intros [H|H]; [inversion H|done].
  - cbn [length Nat.ltb Nat.leb hidden_after fold_left visibility_step].
    rewrite String.eqb_refl. unfold setVisible.
    rewrite elem_of_difference, elem_of_list_to_set.
    destruct (decide (e ∈ i :: ids)); tauto.
Qed.


Lemma processClassifications_pass_through_witness :
  snd (processClassifications [sample_model] sample_classifier
         (mkFilterState ∅ ∅))
  = [classifier_byIfcBuildingStorey; classifier_byCategory]
  ∧ storeys (fst (processClassifications [sample_model] sample_classifier
                    (mkFilterState ∅ ∅))) !! "Terreo"
    = Some true.
Proof.
  destruct processClassifications_pass_through as (_ & Hcalls & Hfilters).
  split; [apply Hcalls|].
  destruct (Hfilters sample_model [] sample_classifier (mkFilterState ∅ ∅)
              "Terreo"%string) as (H & _).
  rewrite H. reflexivity.
Defined.


(** ** Rendering *)

(** C6, as amended.  [src/main.ts] leaves all rendering to the library.
    The fuller revision also draws a view cube itself: at start-up
    it builds one three.js scene, one orthographic camera and one WebGL
    renderer of its own and draws the cube once; after each update of the
    library renderer, on whose event it registers once, it draws the cube
    again, once.  It requests no animation frame for drawing. *)
Theorem rendering_of_the_viewer :
  (∀ n c, c ∈ Main_ts.startup ++ Main_ts.frames n → own_rendering c = false)
  ∧ List.filter own_rendering startup
    = [new_THREE_Scene; new_THREE_OrthographicCamera; new_THREE_WebGLRenderer;
       cubeRenderer_render]
  ∧ List.filter is_registration startup = [renderer_onAfterUpdate_add]
  ∧ (∀ n, frames n = replicate n cubeRenderer_render)
  ∧ (∀ n c, c ∈ startup ++ frames n → c ≠ requestAnimationFrame).
Proof.
  split.
  { intros n c Hc. unfold Main_ts.startup, Main_ts.frames in Hc.
    rewrite app_nil_r in Hc. apply elem_of_three in Hc as [->|[->| ->]]; done. }
  split; [reflexivity|]. split; [reflexivity|].
  assert (Hframes : ∀ n, frames n = replicate n cubeRenderer_render).
  { induction n as [|n IH]; [done|]. unfold frames in *. simpl.
    now rewrite IH. }
  split; [exact Hframes|].
  intros n c [Hc|Hc]%elem_of_app ->.
  - vm_compute in Hc. repeat (inversion Hc as [|? ? ? Hc']; clear Hc;
                                rename Hc' into Hc; subst).
  - rewrite Hframes in Hc. apply elem_of_replicate in Hc as (Hc & _).
    discriminate Hc.
Qed.

Lemma rendering_of_the_viewer_witness :
  new_OBC_SimpleScene ∈ Main_ts.startup ++ Main_ts.frames 2
  ∧ own_rendering new_OBC_SimpleScene = false.
Proof.
  destruct rendering_of_the_viewer as (Hlegacy & _).
  assert (H : new_OBC_SimpleScene ∈ Main_ts.startup ++ Main_ts.frames 2)
    by left.
  split; [exact H|]. exact (Hlegacy 2%nat _ H).
Defined.

(** C6 as stated fails: at start-up the viewer builds a WebGL renderer of
    its own. *)
Lemma viewer_builds_a_renderer : ¬ rendering_delegated.
Proof.
  intros H. specialize (H 0%nat new_THREE_WebGLRenderer).
  discriminate H. vm_compute. do 5 right. left.
Qed.

(** * Further properties *)

(** ** The storey data of several models *)

Lemma collect_models_storeys (models : list Model)
    (acc : list ItemData * gset string) :
  collect_models models acc
  = match storeys_of_models models with
    | Returns data => Returns (fold_left collect_step data acc)
    | Throws => Throws
    end.
Proof.
  revert acc. induction models as [|model rest IH]; intros acc; [done|].
  simpl. destruct (getItemsOfCategories model) as [storeys|]; [|done].
  destruct (getItemsData model _) as [data|]; [|done].
  rewrite IH. destruct (storeys_of_models rest) as [data'|]; [|done].
  now rewrite fold_left_app.
Qed.

Lemma updateStoreyData_storeys (models : list Model) :
  updateStoreyData models
  = match storeys_of_models models with
    | Returns data =>
        sort_by_elevation (fst (fold_left collect_step data ([], ∅)))
    | Throws => []
    end.
Proof.
  destruct models as [|model rest]; [done|].
  unfold updateStoreyData. rewrite collect_models_storeys.
  now destruct (storeys_of_models (model :: rest)).
Qed.

(** What the inner loop keeps it has read, and it carries a name. *)
Lemma collect_step_members (data : list ItemData)
    (acc : list ItemData * gset string) (a : ItemData) :
  a ∈ fst (fold_left collect_step data acc) →
  a ∈ fst acc ∨ (a ∈ data ∧ is_Some (has_value (Name a))).
Proof.
  revert acc. induction data as [|item data IH]; intros acc Ha; [now left|].
  cbn [fold_left] in Ha. apply IH in Ha as [Ha|(Ha & Hn)].
  - unfold collect_step in Ha.
    destruct (has_value (Name item)) as [v|] eqn:Ev; [|now left].
    destruct (bool_decide (v ∈ snd acc)); [now left|]. simpl in Ha.
    apply elem_of_app in Ha as [Ha|Ha]; [now left|].
    apply list_elem_of_singleton in Ha as ->. right.
    split; [left | now rewrite Ev].
  - right. split; [now right | done].
Qed.

Lemma insert_by_elevation_sorted (a : ItemData) (l : list ItemData) :
  StronglySorted by_elevation l →
  StronglySorted by_elevation (insert_by_elevation a l).
Proof.
  induction l as [|b l IH]; intros Hs; simpl.
  - constructor; [constructor | constructor].
  - apply StronglySorted_inv in Hs as (Hs & Hb).
    destruct (ltb (elevation_or_0 b) (elevation_or_0 a)) eqn:E.
    + constructor; [now apply IH|].
      apply Forall_forall. intros c Hc.
      rewrite insert_by_elevation_perm in Hc.
      apply elem_of_cons in Hc as [->|Hc].
      * apply ltb_lt in E. unfold by_elevation. lra.
      * rewrite Forall_forall in Hb. now apply Hb.
    + apply ltb_ge in E. constructor.
      * now constructor.
      * constructor; [exact E|]. apply Forall_forall. intros c Hc.
        rewrite Forall_forall in Hb. specialize (Hb c Hc).
        unfold by_elevation in *. lra.
Qed.

Lemma sort_by_elevation_sorted (l : list ItemData) :
  StronglySorted by_elevation (sort_by_elevation l).
Proof.
  induction l as [|a l IH]; simpl; [constructor|].
  now apply insert_by_elevation_sorted.
Qed.

(** X1. Whatever the models, the storeys [updateStoreyData] leaves in
    [storeyData] are in ascending order of elevation, a storey without
    elevation counting as 0. *)
Theorem updateStoreyData_sorted (models : list Model) :
  StronglySorted by_elevation (updateStoreyData models).
Proof.
  rewrite updateStoreyData_storeys.
  destruct (storeys_of_models models); [|constructor].
  apply sort_by_elevation_sorted.
Qed.

(** X2. No two storeys of [storeyData] carry the same name, every one of
    them carries a name, and every one was read from a loaded model. *)
Theorem updateStoreyData_names (models : list Model) :
  NoDup (names_of (updateStoreyData models))
  ∧ ∀ a, a ∈ updateStoreyData models →
         is_Some (has_value (Name a))
         ∧ ∃ data, storeys_of_models models = Returns data ∧ a ∈ data.
Proof.
  rewrite updateStoreyData_storeys.
  destruct (storeys_of_models models) as [data|].
  2:{ split; [apply NoDup_nil_2 | intros a Ha; inversion Ha]. }
  destruct (collect_step_fold data ([], ∅) EmptyString) as (Hnd & _).
  { apply NoDup_nil_2. }
  { intros n. simpl. split; intros H; [now apply not_elem_of_empty in H|].
    inversion H. }
  split.
  - unfold names_of. rewrite sort_by_elevation_perm. exact Hnd.
  - intros a Ha. rewrite sort_by_elevation_perm in Ha.
    apply collect_step_members in Ha as [Ha|(Ha & Hn)]; [inversion Ha|].
    split; [exact Hn|]. now exists data.
Qed.

(** X3. When the queries of all loaded models resolve, a name finds in
    [storeyData] the first storey carrying it in load order: of two models
    with a storey of the same name, the one loaded first is kept. *)
Theorem updateStoreyData_first_wins (models : list Model)
    (data : list ItemData) (name : string) :
  storeys_of_models models = Returns data →
  List.find (named name) (updateStoreyData models)
  = List.find (named name) data.
Proof.
  intros Hd. rewrite updateStoreyData_storeys, Hd.
  destruct (collect_step_fold data ([], ∅) name) as (Hnd & Hfind).
  - apply NoDup_nil_2.
  - intros n. simpl. split; intros H; [now apply not_elem_of_empty in H|].
    inversion H.
  - rewrite find_named_sorted by exact Hnd. exact Hfind.
Qed.

Lemma updateStoreyData_first_wins_witness :
  storeys_of_models [sample_model; sample_model]
  = Returns (sample_storeys ++ sample_storeys)
  ∧ List.find (named "Terreo") (updateStoreyData [sample_model; sample_model])
    = List.find (named "Terreo") (sample_storeys ++ sample_storeys).
Proof.
  split; [reflexivity|].
  now apply (updateStoreyData_first_wins [sample_model; sample_model]).
Defined.

Lemma storeys_of_models_throws (models : list Model) (model : Model) :
  model ∈ models →
  getItemsOfCategories model = Throws
  ∨ (∃ storeys, getItemsOfCategories model = Returns storeys
                ∧ getItemsData model (Object_values_flat storeys) = Throws) →
  storeys_of_models models = Throws.
Proof.
  induction models as [|m rest IH]; intros Hin Hthrows; [inversion Hin|].
  simpl. apply elem_of_cons in Hin as [<-|Hin].
  - destruct Hthrows as [->|(storeys & -> & ->)]; reflexivity.
  - rewrite (IH Hin Hthrows).
    destruct (getItemsOfCategories m); [|done].
    now destruct (getItemsData m _).
Qed.

(** X4. If a query of any one of the loaded models is rejected,
    [updateStoreyData] leaves [storeyData] empty, whatever the other models
    hold. *)
Theorem updateStoreyData_one_failure (models : list Model) (model : Model) :
  model ∈ models →
  getItemsOfCategories model = Throws
  ∨ (∃ storeys, getItemsOfCategories model = Returns storeys
                ∧ getItemsData model (Object_values_flat storeys) = Throws) →
  updateStoreyData models = [].
Proof.
  intros Hin Hthrows.
  now rewrite updateStoreyData_storeys,
    (storeys_of_models_throws models model Hin Hthrows).
Qed.

Lemma updateStoreyData_one_failure_witness :
  mkModel "falha" Throws Throws Throws (fun _ => Throws)
  ∈ [sample_model; mkModel "falha" Throws Throws Throws (fun _ => Throws)]
  ∧ updateStoreyData
      [sample_model; mkModel "falha" Throws Throws Throws (fun _ => Throws)]
    = [].
Proof.
  assert (H : mkModel "falha" Throws Throws Throws (fun _ => Throws)
              ∈ [sample_model;
                 mkModel "falha" Throws Throws Throws (fun _ => Throws)])
    by (right; left).
  split; [exact H|].
  apply (updateStoreyData_one_failure _ _ H). now left.
Defined.

(** ** Repositioning and framing *)

(** X5. Repositioning is absolute: with the same answers from the library,
    [adjustModelToLevel0] a second time leaves position and offset where
    the first put them. *)
Theorem adjustModelToLevel0_idempotent (model : Model) (st : Level) :
  adjustModelToLevel0 model (adjustModelToLevel0 model st)
  = adjustModelToLevel0 model st.
Proof.
  unfold adjustModelToLevel0.
  destruct (getCoordinates model) as [coordHeight|]; [|done].
  destruct (getItemsOfCategories model) as [storeys|]; [|done].
  destruct (length _ =? 0)%nat; [done|].
  destruct (getItemsData model _) as [data|]; [|done].
  now destruct (fst (lowest data)).
Qed.

(** X6. When [frameModel] computes the camera position itself, the camera
    is strictly beyond the maximum corner of the bounding box on each of
    the three axes, and looks at the centre of the box. *)
Theorem frameModel_camera_outside (model : Model) (box : Box3) :
  setFromObject model = Returns box → isEmpty box = false →
  in_range (getSize box) →
  ∃ position,
    frameModel model = [controls_setLookAt position (getCenter box) true]
    ∧ x (max box) < x position ∧ y (max box) < y position
    ∧ z (max box) < z position.
Proof.
  intros Hbox Hne Hr. eexists.
  split; [apply (frameModel_in_range model box Hbox Hne Hr)|].
  destruct (nonempty_ordered box Hne) as (Hx & Hy & Hz).
  pose proof (Math_max3_bounds (x (getSize box)) (y (getSize box))
                (z (getSize box))) as (Bx & By & Bz).
  destruct Hr as (Hlow & _). revert Hlow Bx By Bz.
  unfold getCenter, getSize, lengthSq. rewrite Hne. simpl.
  set (m := Math_max3 _ _ _). clearbody m. intros Hlow Bx By Bz.
  assert (0 < m) by nra.
  repeat split; lra.
Qed.

Lemma frameModel_camera_outside_witness :
  setFromObject sample_model = Returns sample_box
  ∧ isEmpty sample_box = false
  ∧ in_range (getSize sample_box)
  ∧ ∃ position,
      frameModel sample_model
      = [controls_setLookAt position (getCenter sample_box) true]
      ∧ x (max sample_box) < x position ∧ y (max sample_box) < y position
      ∧ z (max sample_box) < z position.
Proof.
  assert (R : in_range (getSize sample_box))
    by (unfold in_range; vm_compute; split; discriminate).
  split; [reflexivity|]. split; [reflexivity|]. split; [exact R|].
  exact (frameModel_camera_outside sample_model sample_box eq_refl eq_refl R).
Defined.

(** ** Floor plans *)

Lemma NoDup_map_on {A B} (f : A → B) (l : list A) :
  (∀ a b, a ∈ l → b ∈ l → f a = f b → a = b) →
  NoDup l → NoDup (map f l).
Proof.
  induction l as [|a l IH]; intros Hinj Hnd; simpl; [apply NoDup_nil_2|].
  apply NoDup_cons in Hnd as (Hnot & Hnd). apply NoDup_cons. split.
  - intros Hin. apply Hnot. clear IH Hnd Hnot.
    induction l as [|b l IHl]; [inversion Hin|]. simpl in Hin.
    apply elem_of_cons in Hin as [Hin|Hin].
    + apply Hinj in Hin as ->; [left|left|right; left].
    + right. apply IHl; [|exact Hin]. intros c d Hc Hd. apply Hinj.
      * apply elem_of_cons in Hc as [->|Hc]; [left|right; now right].
      * apply elem_of_cons in Hd as [->|Hd]; [left|right; now right].
  - apply IH; [|exact Hnd]. intros b c Hb Hc. apply Hinj; now right.
Qed.

Lemma manual_views_ids (box : Box3) : NoDup (map id (manual_views box)).
Proof.
  unfold manual_views. rewrite map_app, map_map. apply NoDup_app.
  split; [|split].
  - apply NoDup_map_on; [|apply NoDup_seqZ].
    intros i j _ _ [= H]. lia.
  - intros v Hv Htop. apply list_elem_of_singleton in Htop. subst v.
    apply list_elem_of_In, in_map_iff in Hv as (i & Hi & _). discriminate Hi.
  - apply NoDup_singleton.
Qed.

(** X7. With a model loaded whose bounding box can be computed,
    [generateFloorPlans] never leaves [floorViews] empty; it asks the
    library to delete every view it held before; and the views it lays
    out itself, when the library makes none, have pairwise different
    ids. *)
Theorem generateFloorPlans_views (model : Model) (rest : list Model)
    (box : Box3) (r : outcome (list View)) (old : list View) :
  setFromObject model = Returns box →
  let result := generateFloorPlans (model :: rest) r old in
  fst result ≠ []
  ∧ (∀ v, v ∈ old → views_list_delete (id v) ∈ snd result)
  ∧ (r = Throws ∨ r = Returns [] → NoDup (map id (fst result))).
Proof.
  intros Hbox result.
  assert (Hdel : ∀ v, v ∈ old →
            views_list_delete (id v)
            ∈ map (λ view, views_list_delete (id view)) old).
  { intros v Hv. apply list_elem_of_In.
    apply (in_map (λ view, views_list_delete (id view))).
    now apply list_elem_of_In. }
  assert (Hcases : r = Throws ∨ r = Returns []
                   ∨ ∃ ifcViews, ifcViews ≠ [] ∧ r = Returns ifcViews).
  { destruct r as [[|v l]|]; [right; now left| |now left].
    right; right. now exists (v :: l). }
  assert (Hmanual : manual_views box ≠ []).
  { intros H. apply (f_equal length) in H.
    rewrite length_manual_views in H. discriminate H. }
  subst result.
  destruct Hcases as [Hr|[Hr|(ifcViews & Hne & ->)]].
  1,2: rewrite (generateFloorPlans_manual model rest box r old Hbox)
         by tauto; cbn [fst snd];
       (split; [exact Hmanual|]); split;
       [ intros v Hv; apply elem_of_app; left; right;
         apply elem_of_app; left; now apply Hdel
       | intros _; apply manual_views_ids ].
  rewrite (generateFloorPlans_ifc model rest box ifcViews old Hbox Hne).
  cbn [fst snd]. split; [exact Hne|]. split.
  - intros v Hv. right. apply elem_of_app. left. now apply Hdel.
  - intros [H|H]; [discriminate H|]. injection H as ->. done.
Qed.

Lemma generateFloorPlans_views_witness :
  setFromObject sample_model = Returns sample_box
  ∧ fst (generateFloorPlans [sample_model] Throws []) ≠ []
  ∧ NoDup (map id (fst (generateFloorPlans [sample_model] Throws []))).
Proof.
  split; [reflexivity|].
  destruct (generateFloorPlans_views sample_model [] sample_box Throws []
              eq_refl) as (Hne & _ & Hnd).
  split; [exact Hne | apply Hnd; now left].
Defined.



(** ** Loading *)

(** X9. The progress the library reports during a load, between 0 and 1,
    is shown as a percentage between 10 and 95, growing with the progress;
    the callback leaves the overlay on show and [isLoading] as they are. *)
Theorem progressCallback_range (p q : number) (st : Loading) :
  0 <= p → p <= q → q <= 1 →
  (10 ≤ percent (loadingOverlay (progressCallback p st))
   ≤ percent (loadingOverlay (progressCallback q st)))%Z
  ∧ (percent (loadingOverlay (progressCallback q st)) ≤ 95)%Z
  ∧ display (loadingOverlay (progressCallback p st))
    = display (loadingOverlay st)
  ∧ isLoading (progressCallback p st) = isLoading st.
Proof.
  intros H0 Hpq H1. unfold progressCallback, updateProgress, Math_round.
  cbn [loadingOverlay percent display isLoading]. unfold number in *.
  split; [split|split; [|done]].
  - rewrite <- (Qfloor_Z 10). apply Qfloor_resp_le.
    change (inject_Z 10) with 10. lra.
  - apply Qfloor_resp_le. lra.
  - change 95%Z with (Qfloor (955 # 10)). apply Qfloor_resp_le. lra.
Qed.

Lemma progressCallback_range_witness :
  0 <= 0.25 ∧ 0.25 <= 0.5 ∧ 0.5 <= 1
  ∧ (10 ≤ percent (loadingOverlay (progressCallback 0.25%Q initial_loading))
     ≤ percent (loadingOverlay (progressCallback 0.5%Q initial_loading)))%Z.
Proof.
  assert (H0 : 0 <= 0.25) by lra. assert (H1 : 0.25 <= 0.5) by lra.
  assert (H2 : 0.5 <= 1) by lra.
  split; [exact H0|]. split; [exact H1|]. split; [exact H2|].
  destruct (progressCallback_range 0.25 0.5 initial_loading H0 H1 H2)
    as (H & _).
  exact H.
Defined.

Lemma prefix_cons_ne (a b : ascii) (s t : string) :
  a ≠ b → String.prefix (String a s) (String b t) = false.
Proof.
  intros Hne. simpl. now destruct (Ascii.ascii_dec a b).
Qed.

Lemma replace_cons (pattern replacement : string) (c : ascii) (s : string) :
  String.prefix pattern (String c s) = false →
  replace pattern replacement (String c s)
  = String c (replace pattern replacement s).
Proof. intros H. cbn [replace]. now rewrite H. Qed.

Lemma replace_absent (pattern replacement s : string) :
  includes s pattern = false → replace pattern replacement s = s.
Proof.
  induction s as [|c s IH]; intros H.
  - cbn [includes] in H. apply orb_false_iff in H as (H & _).
    cbn [replace]. now rewrite H.
  - cbn [includes] in H. apply orb_false_iff in H as (H & Hs).
    rewrite replace_cons by exact H. now rewrite IH.
Qed.

Lemma replace_extension (base : string) :
  dotless base = true → replace ".ifc" "" (base +:+ ".ifc") = base.
Proof.
  induction base as [|c base IH]; intros H; [reflexivity|].
  cbn [dotless] in H. apply andb_true_iff in H as (Hc & H).
  apply negb_true_iff, Ascii.eqb_neq in Hc.
  change (String c base +:+ ".ifc") with (String c (base +:+ ".ifc")).
  rewrite replace_cons by (apply prefix_cons_ne; congruence).
  now rewrite IH.
Qed.

(** X10. The name a model is loaded under: a file name of a dotless base
    followed by ".ifc" gives the base; a file name in which ".ifc" does not
    occur in exactly these letters is kept whole, extension included, even
    though the drop handler takes the extension in any letter case. *)
Theorem model_name_of_file :
  (∀ base, dotless base = true → replace ".ifc" "" (base +:+ ".ifc") = base)
  ∧ (∀ name', includes name' ".ifc" = false →
              replace ".ifc" "" name' = name').
Proof.
  split; [exact replace_extension | intros n; apply replace_absent].
Qed.

Lemma model_name_of_file_witness :
  (dotless "casa" = true ∧ replace ".ifc" "" ("casa" +:+ ".ifc") = "casa")
  ∧ (includes "PLANTA.IFC" ".ifc" = false
     ∧ endsWith (toLowerCase "PLANTA.IFC") ".ifc" = true
     ∧ replace ".ifc" "" "PLANTA.IFC" = "PLANTA.IFC").
Proof.
  destruct model_name_of_file as (Hbase & Hwhole).
  split; (split; [reflexivity|]).
  - now apply Hbase.
  - split; [reflexivity | now apply Hwhole].
Defined.

(** X11. A file chosen while no load is in progress is read, and once its
    read is fulfilled it is handed to the library's loader, once. *)
Theorem chosen_file_is_loaded (events : list event) (file : File)
    (files : list File) :
  parked (run events initial_page) = [] →
  let p := run events initial_page in
  let p' := run [file_chosen (file :: files); settled 0 fulfilled] p in
  trace p'
  = trace p ++ [file_arrayBuffer file;
                ifcLoader_load (contents file) false
                  (replace ".ifc" "" (name file))]
  ∧ parked p' = [await_load file].
Proof.
  intros Hidle p p'. subst p'.
  destruct initial_invariant as (H1 & H2).
  destruct (run_invariant events [] initial_page H1 H2) as (Hone & _).
  fold p in Hone. unfold one_load_at_most in Hone. fold p in Hidle.
  rewrite Hidle in Hone. destruct Hone as (Hfalse & _).
  destruct p as [st ks calls]. simpl in *. subst ks.
  unfold run. simpl. unfold loadIfcFromFile. rewrite Hfalse. simpl.
  now rewrite <- app_assoc.
Qed.

Lemma chosen_file_is_loaded_witness :
  parked (run [] initial_page) = []
  ∧ parked (run [file_chosen [sample_file]; settled 0 fulfilled]
              (run [] initial_page))
    = [await_load sample_file].
Proof.
  split; [reflexivity|].
  destruct (chosen_file_is_loaded [] sample_file [] eq_refl) as (_ & H).
  exact H.
Defined.

Lemma step_invariant_accepted (files : list File) (p : Page) (e : event) :
  one_load_at_most files p → loads_from files (trace p) →
  let files' := files ++ match accepted e with Some f => [f] | None => [] end in
  one_load_at_most files' (step p e) ∧ loads_from files' (trace (step p e)).
Proof.
  intros Hone Hloads. cbv zeta.
  pose proof (step_invariant files p e Hone Hloads) as Hold.
  cbv zeta in Hold.
  destruct e as [fs|fs|i r|progress]; try exact Hold.
  destruct fs as [|file fs]; [exact Hold|].
  cbn [accepted chosen head] in *.
  destruct (endsWith (toLowerCase (name file)) ".ifc") eqn:E; [exact Hold|].
  rewrite app_nil_r. cbn [step onDrop]. rewrite E.
  unfold started. cbn [fst snd]. rewrite app_nil_r. split.
  - now destruct p.
  - cbn [trace]. apply loads_from_app; [exact Hloads|]. not_a_load.
Qed.

Lemma run_invariant_accepted (events : list event) (files : list File)
    (p : Page) :
  one_load_at_most files p → loads_from files (trace p) →
  one_load_at_most (files ++ omap accepted events) (run events p)
  ∧ loads_from (files ++ omap accepted events) (trace (run events p)).
Proof.
  revert files p. induction events as [|e events IH]; intros files p H1 H2.
  - simpl. rewrite app_nil_r. now split.
  - destruct (step_invariant_accepted files p e H1 H2) as (H1' & H2').
    specialize (IH _ _ H1' H2'). simpl.
    rewrite <- app_assoc in IH.
    destruct (accepted e); exact IH.
Qed.

(** X12. A file is loaded only if it was chosen in the file input, or
    dropped with a name that ends in ".ifc" in some letter case: whatever
    else happens on the page, a file dropped under any other name never
    reaches the loader. *)
Theorem only_accepted_files_are_loaded (events : list event)
    (buffer : list Byte.byte) (coordinate : bool) (name' : string) :
  ifcLoader_load buffer coordinate name' ∈ trace (run events initial_page) →
  ∃ file, file ∈ omap accepted events ∧ buffer = contents file.
Proof.
  intros Hin. destruct initial_invariant as (H1 & H2).
  destruct (run_invariant_accepted events [] initial_page H1 H2) as (_ & H).
  destruct (H buffer coordinate name' Hin) as (file & Hf & Hb & _).
  now exists file.
Qed.

Lemma only_accepted_files_are_loaded_witness :
  ifcLoader_load (contents sample_file) false "casa"
  ∈ trace (run [file_dropped [mkFile "notas.txt" [Byte.x41]];
                file_dropped [sample_file]; settled 0 fulfilled]
             initial_page)
  ∧ ∃ file,
      file ∈ omap accepted
               [file_dropped [mkFile "notas.txt" [Byte.x41]];
                file_dropped [sample_file]; settled 0 fulfilled]
      ∧ contents sample_file = contents file.
Proof.
  assert (H : ifcLoader_load (contents sample_file) false "casa"
              ∈ trace (run [file_dropped [mkFile "notas.txt" [Byte.x41]];
                            file_dropped [sample_file]; settled 0 fulfilled]
                         initial_page))
    by (vm_compute; do 2 right; left).
  split; [exact H|].
  exact (only_accepted_files_are_loaded _ _ _ _ H).
Defined.

(** ** Filters *)

Lemma applyFilters_visible (model : Model) (rest : list Model)
    (classifier : Classifier) (fs : FilterState) (hidden : gset N) (e : N) :
  e ∉ hidden_after (modelId model)
        (applyFilters (model :: rest) classifier fs) hidden
  ↔ (classified e (Storeys classifier) ∨ e ∉ hidden)
    ∧ all_checked e (Storeys classifier) (storeys fs)
    ∧ all_checked e (Categories classifier) (categories fs).
Proof.
  unfold applyFilters, first_model. cbn [head].
  rewrite !hidden_after_app.
  change (hidden_after (modelId model) [fragments_core_update true] ?h)
    with h.
  rewrite !hide_unchecked_hidden, show_all_hidden, collect_allIds_classified.
  tauto.
Qed.






Lemma checked_all (b : bool) (filterMap : gmap string bool) (n : string) :
  checked ((λ _, b) <$> filterMap) n
  = match filterMap !! n with
    | Some _ => b
    | None => false
    end.
Proof.
  unfold checked. rewrite lookup_fmap. now destruct (filterMap !! n).
Qed.



Lemma registered_then_checked (c : option Classification)
    (filterMap : gmap string bool) (e : N) :
  all_checked e c ((λ _, true) <$> register_all c filterMap).
Proof.
  intros g Hg _. rewrite checked_all, register_all_lookup.
  destruct (filterMap !! fst g); [done|].
  destruct (decide (fst g ∈ map fst (groups_of c))) as [|Hn]; [done|].
  exfalso. apply Hn. apply list_elem_of_In, in_map, list_elem_of_In, Hg.
Qed.

(** X15. Once [processClassifications] has set up the filters, "Todos" on
    both the storey and the category filters makes [applyFilters] show
    every item that is in a storey group, IfcSpaces hidden at load
    included. *)
Theorem select_all_shows (model : Model) (rest : list Model)
    (classifier : Classifier) (fs : FilterState) (hidden : gset N) (e : N) :
  classified e (Storeys classifier) →
  let registered :=
    fst (processClassifications (model :: rest) classifier fs) in
  let all_on :=
    toggleAllFilters category true (toggleAllFilters storey true registered) in
  e ∉ hidden_after (modelId model)
        (applyFilters (model :: rest) classifier all_on) hidden.
Proof.
  intros Hc registered all_on. apply applyFilters_visible.
  split; [now left|]. subst all_on registered.
  cbn [processClassifications first_model head fst updateFilterUI
       toggleAllFilters storeys categories].
  split; apply registered_then_checked.
Qed.

Lemma select_all_shows_witness :
  classified 2%N (Storeys sample_classifier)
  ∧ 2%N ∉ hidden_after "casa"
            (applyFilters [sample_model] sample_classifier
               (toggleAllFilters category true
                  (toggleAllFilters storey true
                     (fst (processClassifications [sample_model]
                             sample_classifier sample_filters)))))
            {[2%N; 4%N]}.
Proof.
  assert (H : classified 2%N (Storeys sample_classifier)).
  { exists ("Terreo"%string, [("casa"%string, [1%N; 2%N])]).
    split; [left|]. exists [1%N; 2%N]. split; [left | right; left]. }
  split; [exact H|].
  exact (select_all_shows sample_model [] sample_classifier sample_filters
           {[2%N; 4%N]} 2%N H).
Defined.



(** ** The list of models *)

Lemma set_all_lookup (v : bool) (l : list Entry) (m : gmap string bool)
    (k : string) :
  k ∈ map key l →
  fold_left (λ m e, <[key e:=v]> m) l m !! k = Some v.
Proof.
  revert m. induction l as [|e l IH]; intros m Hk; [inversion Hk|].
  cbn [fold_left]. destruct (decide (k ∈ map key l)) as [Hin|Hnin].
  - now apply IH.
  - simpl in Hk. apply elem_of_cons in Hk as [->|Hk]; [|contradiction].
    clear IH Hnin. revert m. induction l as [|e' l IH]; intros m.
    + apply lookup_insert_eq.
    + cbn [fold_left]. destruct (decide (key e' = key e)) as [Heq|Hne].
      * rewrite Heq, insert_insert_eq. apply IH.
      * rewrite insert_insert_ne by done. apply IH.
Qed.

Lemma set_object_visible_keys (modelId : string) (v : bool) (l : list Entry) :
  map key (set_object_visible modelId v l) = map key l.
Proof.
  unfold set_object_visible. rewrite map_map. apply map_ext.
  intros e. now destruct (String.eqb (key e) modelId).
Qed.

Lemma toggleModelVisibility_in_step (modelId : string) (v : bool)
    (st : ModelList) :
  in_step st → in_step (toggleModelVisibility modelId v st).
Proof.
  intros (Hnd & Hvis). unfold toggleModelVisibility.
  destruct (existsb _ _); [|now split]. split; cbn [entries].
  - now rewrite set_object_visible_keys.
  - intros e' He'. cbn [modelVisibilityState].
    apply list_elem_of_In, in_map_iff in He' as (e & <- & He).
    apply list_elem_of_In in He. unfold isVisible.
    destruct (String.eqb_spec (key e) modelId) as [<-|Hne]; cbn [key].
    + rewrite lookup_insert_eq. now destruct v.
    + rewrite lookup_insert_ne by done. now apply Hvis.
Qed.

Lemma set_all_in_step (v : bool) (st : ModelList) :
  in_step st → in_step (set_all v st).
Proof.
  intros (Hnd & _). unfold set_all. split; cbn [entries].
  - rewrite map_map. exact Hnd.
  - intros e' He'. cbn [modelVisibilityState].
    apply list_elem_of_In, in_map_iff in He' as (e & <- & He).
    cbn [key object_visible]. unfold isVisible.
    rewrite set_all_lookup; [now destruct v|].
    now apply list_elem_of_In, in_map.
Qed.

(** X17. The checkboxes of the model list and the models stay in step:
    from a state where each checkbox would be drawn checked exactly if its
    model is visible, that is still so after a model is toggled (whether or
    not it exists), after "Mostrar Todos", after "Ocultar Todos" and after
    "Limpar Modelos"; and [updateModelsList] then draws, for each model in
    order, a checkbox checked exactly if the model is visible, under the
    model's key if that is not empty. *)
Theorem model_list_in_step (st : ModelList) :
  in_step st →
  (∀ modelId v, in_step (toggleModelVisibility modelId v st))
  ∧ in_step (showAllModels st) ∧ in_step (hideAllModels st)
  ∧ in_step (clearModels st)
  ∧ ∀ i e, entries st !! i = Some e →
      ∃ shown,
        updateModelsList st !! i = Some (shown, object_visible e)
        ∧ (key e ≠ EmptyString → shown = key e).
Proof.
  intros Hin. split; [intros; now apply toggleModelVisibility_in_step|].
  split; [now apply set_all_in_step|]. split; [now apply set_all_in_step|].
  split.
  { split; [apply NoDup_nil_2 | intros e He; inversion He]. }
  intros i e Hi. unfold updateModelsList. rewrite list_lookup_imap, Hi.
  destruct Hin as (_ & Hvis). cbn.
  rewrite (Hvis e) by (apply list_elem_of_lookup; now exists i).
  eexists. split; [reflexivity|]. intros Hne.
  destruct (String.eqb_spec (key e) EmptyString); [contradiction|done].
Qed.

Lemma model_list_in_step_witness :
  in_step (mkModelList [mkEntry "casa" true; mkEntry "anexo" true] ∅)
  ∧ in_step (toggleModelVisibility "anexo" false
               (mkModelList [mkEntry "casa" true; mkEntry "anexo" true] ∅)).
Proof.
  assert (H : in_step
                (mkModelList [mkEntry "casa" true; mkEntry "anexo" true] ∅)).
  { split.
    - simpl. apply NoDup_cons. split.
      + intros Hin. apply list_elem_of_singleton in Hin. discriminate Hin.
      + apply NoDup_singleton.
    - intros e He. apply elem_of_cons in He as [->|He]; [reflexivity|].
      apply list_elem_of_singleton in He as ->. reflexivity. }
  split; [exact H|].
  destruct (model_list_in_step _ H) as (Htoggle & _). apply Htoggle.
Defined.

(** ** Floor-plan views *)

Lemma open_view_app (calls more : list plan_call) :
  open_view (calls ++ more) = fold_left open_step more (open_view calls).
Proof. unfold open_view. apply fold_left_app. Qed.

Lemma open_step_framing (l : list call) (o : option viewId) :
  fold_left open_step (map framing l) (Some o) = Some o.
Proof. induction l as [|c l IH]; [reflexivity|]. simpl. now destruct o. Qed.

(** What [closePlantView] does to the view that is open. *)
Lemma closePlantView_open (views_list : list viewId)
    (fragments_list : list Model) (st : PlanState) :
  (∀ c, currentViewId st = Some c → c ∈ views_list) →
  let out := closePlantView views_list fragments_list st in
  fold_left open_step (snd out) (Some (currentViewId st))
  = Some (currentViewId (fst out))
  ∧ ∀ c, currentViewId (fst out) = Some c → c ∈ views_list.
Proof.
  intros Hin. unfold closePlantView.
  destruct (currentViewId st) as [c|] eqn:Hc; cbn [fst snd].
  - split; [|intros c' Hc'; discriminate Hc'].
    unfold close_current. rewrite bool_decide_eq_true_2 by now apply Hin.
    cbn [app fold_left open_step].
    destruct fragments_list as [|model rest]; [reflexivity|].
    apply open_step_framing.
  - rewrite Hc. split; [reflexivity|intros c' Hc'; discriminate Hc'].
Qed.

(** What [openFloorPlan] does to the view that is open. *)
Lemma openFloorPlan_open (value : dropdown_value) (views_list : list viewId)
    (fragments_list : list Model) (st : PlanState) :
  (∀ c, currentViewId st = Some c → c ∈ views_list) →
  let out := fst (openFloorPlan value views_list fragments_list st) in
  fold_left open_step (snd out) (Some (currentViewId st))
  = Some (currentViewId (fst out))
  ∧ ∀ c, currentViewId (fst out) = Some c → c ∈ views_list.
Proof.
  intros Hin. unfold openFloorPlan.
  destruct value as [|viewId]; [now apply closePlantView_open|].
  destruct (no_view (option_value viewId)); [now apply closePlantView_open|].
  destruct (bool_decide (viewId ∈ views_list)) eqn:Hv; cbn [negb].
  2:{ cbn [fst snd fold_left]. now split. }
  apply bool_decide_eq_true_1 in Hv.
  assert (Hopened :
    ∀ more, (∀ c, c ∈ more → open_step (Some (Some viewId)) c
                              = Some (Some viewId)) →
      fold_left open_step
        ((close_current views_list (currentViewId st)
          ++ [views_open viewId; plan_core_update]) ++ more)
        (Some (currentViewId st)) = Some (Some viewId)).
  { intros more Hmore. rewrite !fold_left_app.
    assert (Hclose : fold_left open_step
                       (close_current views_list (currentViewId st))
                       (Some (currentViewId st)) = Some None).
    { unfold close_current. destruct (currentViewId st) as [c|];
        [|reflexivity].
      now rewrite bool_decide_eq_true_2 by now apply Hin. }
    rewrite Hclose. cbn [fold_left open_step].
    induction more as [|c more IH]; [reflexivity|]. cbn [fold_left].
    rewrite Hmore by apply list_elem_of_here. apply IH.
    intros c' Hc'. apply Hmore. now apply list_elem_of_further. }
  destruct (first_model fragments_list) as [model|].
  2:{ cbn [fst snd]. split.
      - rewrite <- (app_nil_r (_ ++ _)). apply Hopened.
        intros c Hc. inversion Hc.
      - intros c [= <-]. exact Hv. }
  destruct (setFromObject model) as [box|]; cbn [fst snd].
  - split; [|intros c [= <-]; exact Hv]. apply Hopened.
    intros c Hc. apply list_elem_of_singleton in Hc as ->. reflexivity.
  - split; [|intros c [= <-]; exact Hv].
    rewrite <- (app_nil_r (_ ++ _)). apply Hopened.
    intros c Hc. inversion Hc.
Qed.

Lemma plan_step_open (views_list : list viewId) (fragments_list : list Model)
    (page : Plan) (e : plan_event) :
  open_view (plan_trace page) = Some (currentViewId (plan_state page))
  ∧ (∀ c, currentViewId (plan_state page) = Some c → c ∈ views_list) →
  let page' := plan_step views_list fragments_list page e in
  open_view (plan_trace page') = Some (currentViewId (plan_state page'))
  ∧ (∀ c, currentViewId (plan_state page') = Some c → c ∈ views_list).
Proof.
  intros (Hopen & Hin). destruct e as [value| |i s]; cbn [plan_step].
  - pose proof (openFloorPlan_open value views_list fragments_list
                  (plan_state page) Hin) as Hstep. cbv zeta in Hstep.
    destruct (openFloorPlan _ _ _ _) as [[st calls] p].
    cbn [fst snd] in Hstep. cbn [plan_trace plan_state].
    now rewrite open_view_app, Hopen.
  - pose proof (closePlantView_open views_list fragments_list
                  (plan_state page) Hin) as Hstep. cbv zeta in Hstep.
    destruct (closePlantView _ _ _) as [st calls].
    cbn [fst snd] in Hstep. cbn [plan_trace plan_state].
    now rewrite open_view_app, Hopen.
  - destruct (plan_parked page !! i) as [p|]; [|now split].
    destruct s, p; cbn [openFloorPlan_resume plan_trace plan_state
                          currentViewId];
      rewrite ?app_nil_r; try now split.
    rewrite open_view_app, Hopen. cbn [fold_left open_step].
    split; [now destruct (currentViewId (plan_state page))|exact Hin].
Qed.

(** X18. One floor plan at a time.  From the page as it starts, through
    any sequence of selections in the floor dropdown (of views that exist or
    not, or of the placeholder), clicks on "Voltar à Vista 3D" and
    settlements of the camera promises in any order, against a list of views
    that stays as it is: the viewer never calls [views.open] while a view it
    opened is not closed again, and the view left open by its calls is
    exactly the one [currentViewId] names (none when it is null). *)
Theorem one_floor_plan_open (views_list : list viewId)
    (fragments_list : list Model) (events : list plan_event) :
  let page := plan_run views_list fragments_list events initial_plan in
  open_view (plan_trace page) = Some (currentViewId (plan_state page)).
Proof.
  cbv zeta. unfold plan_run.
  enough (H : ∀ page,
    open_view (plan_trace page) = Some (currentViewId (plan_state page))
    ∧ (∀ c, currentViewId (plan_state page) = Some c → c ∈ views_list) →
    open_view (plan_trace (fold_left (plan_step views_list fragments_list)
                             events page))
    = Some (currentViewId
              (plan_state (fold_left (plan_step views_list fragments_list)
                             events page)))).
  { apply H. split; [reflexivity|]. intros c Hc. discriminate Hc. }
  induction events as [|e events IH]; intros page Hpage; [apply Hpage|].
  cbn [fold_left]. apply IH. now apply plan_step_open.
Qed.



(** ** The view cube *)



(** ** The drop zone *)

(** X21. One drop zone at most.  Through any sequence of drag-over,
    drag-leave and drop events on the container, starting with no drop
    zone, the document body holds exactly one drop-zone element while the
    variable [dropZone] is set and none while it is null; and right after a
    drop none is left. *)
Theorem drop_zone_single (events : list drag_event) :
  let st := fold_left drag_step events (mkDropZone false 0) in
  zones_in_body st = (if dropZone st then 1%nat else 0%nat)
  ∧ zones_in_body (drag_step st dropped) = 0%nat
  ∧ dropZone (drag_step st dropped) = false.
Proof.
  cbv zeta.
  assert (Hinv : ∀ st, zones_in_body st = (if dropZone st then 1%nat else 0%nat)
                 → ∀ e, zones_in_body (drag_step st e)
                        = (if dropZone (drag_step st e) then 1%nat else 0%nat)).
  { intros [d n] Hst e. cbn in Hst. subst n.
    destruct e as [|inside|]; [| destruct inside |]; now destruct d. }
  assert (Hrun : ∀ st, zones_in_body st = (if dropZone st then 1%nat else 0%nat)
                 → zones_in_body (fold_left drag_step events st)
                   = (if dropZone (fold_left drag_step events st)
                      then 1%nat else 0%nat)).
  { induction events as [|e events IH]; intros st Hst; [exact Hst|].
    cbn [fold_left]. apply IH. now apply Hinv. }
  specialize (Hrun (mkDropZone false 0) eq_refl).
  split; [exact Hrun|].
  destruct (fold_left drag_step events _) as [d n]. cbn in Hrun. subst n.
  now destruct d.
Qed.

(** ** Hovering *)

Lemma no_double_trigger_snoc (calls : list hover_call) (c : hover_call) :
  no_double_trigger calls →
  ¬ (last calls = Some onHoverEnded_trigger ∧ c = onHoverEnded_trigger) →
  no_double_trigger (calls ++ [c]).
Proof.
  induction calls as [|a [|b calls] IH]; intros Hcalls Hlast.
  - exact I.
  - cbn. split; [|exact I]. intros (-> & ->). now apply Hlast.
  - destruct Hcalls as (Hab & Hcalls). split; [exact Hab|].
    now apply IH.
Qed.

Lemma hover_step_invariant (acc : option string * list hover_call)
    (input : gmap string bool * option (option string)) :
  no_double_trigger (snd acc)
  ∧ (last (snd acc) = Some onHoverEnded_trigger → truthy (fst acc) = false) →
  no_double_trigger (snd (hover_step acc input))
  ∧ (last (snd (hover_step acc input)) = Some onHoverEnded_trigger
     → truthy (fst (hover_step acc input)) = false).
Proof.
  destruct acc as [lastHoveredModel calls], input as [models result].
  cbn [fst snd]. intros (Hcalls & Hlast).
  unfold hover_step, hover. cbn [fst snd negb].
  destruct result as [modelId|]; cbn [fst snd].
  2:{ split; [|now rewrite last_snoc].
      apply no_double_trigger_snoc; [exact Hcalls|]. now intros (_ & ?). }
  match goal with
  | |- context [if ?b then _ else _] => destruct b
  end.
  - destruct (truthy lastHoveredModel) eqn:Htruthy; cbn [fst snd].
    + split; [|reflexivity].
      apply no_double_trigger_snoc; [exact Hcalls|].
      intros (Hl & _). apply Hlast in Hl. discriminate Hl.
    + rewrite app_nil_r. now split.
  - cbn [fst snd]. split; [|now rewrite last_snoc].
    apply no_double_trigger_snoc; [exact Hcalls|]. now intros (_ & ?).
Qed.

(** X22. Hover-ended once.  Through any sequence of hovers, whatever the
    rays hit and whichever models are visible at each, and whatever
    [lastHoveredModel] holds at the start, the replacement of
    [hoverer.hover] never triggers [onHoverEnded] twice without a call of
    the original hover in between. *)
Theorem hover_ended_once
    (inputs : list (gmap string bool * option (option string)))
    (lastHoveredModel : option string) :
  no_double_trigger (snd (hover_run inputs lastHoveredModel)).
Proof.
  unfold hover_run.
  enough (H : ∀ acc,
    no_double_trigger (snd acc)
    ∧ (last (snd acc) = Some onHoverEnded_trigger → truthy (fst acc) = false) →
    no_double_trigger (snd (fold_left hover_step inputs acc))).
  { apply H. split; [exact I|]. intros Hl. discriminate Hl. }
  induction inputs as [|input inputs IH]; intros acc Hacc; [apply Hacc|].
  cbn [fold_left]. apply IH. now apply hover_step_invariant.
Qed.

(** ** The name of a screenshot *)

Lemma dash_safe (c : ascii) : dash c ≠ ":"%char ∧ dash c ≠ "."%char.
Proof.
  unfold dash. destruct (Ascii.eqb_spec c ":") as [->|Hc]; [now split|].
  destruct (Ascii.eqb_spec c ".") as [->|Hd]; now split.
Qed.

Lemma substring_0_length (n : nat) (s : string) :
  String.length (String.substring 0 n s) = Nat.min n (String.length s).
Proof.
  revert s. induction n as [|n IH]; intros [|c s]; cbn; try reflexivity.
  now rewrite IH.
Qed.

Lemma replace_colons_dots_length (s : string) :
  String.length (replace_colons_dots s) = String.length s.
Proof. induction s as [|c s IH]; cbn; [reflexivity|now rewrite IH]. Qed.

Lemma substring_0_get (n i : nat) (s : string) (c : ascii) :
  String.get i (String.substring 0 n s) = Some c → String.get i s = Some c.
Proof.
  revert i s. induction n as [|n IH]; intros i [|a s]; cbn; try discriminate.
  destruct i as [|i]; [trivial|]. apply IH.
Qed.

Lemma replace_colons_dots_get (i : nat) (s : string) (c : ascii) :
  String.get i (replace_colons_dots s) = Some c →
  ∃ c', String.get i s = Some c' ∧ c = dash c'.
Proof.
  revert i. induction s as [|a s IH]; intros i; cbn; [discriminate|].
  destruct i as [|i]; [|apply IH]. intros [= <-]. now exists a.
Qed.

(** X23. The time stamp in the name of a screenshot.  Whatever
    [toISOString] returns, the stamp put between "screenshot-" and ".png"
    is at most 19 characters long (19 when the ISO string has that many),
    holds no colon and no dot, and agrees character by character with the
    ISO string wherever that has neither, a "-" standing where it has
    one. *)
Theorem screenshot_name_stamp (toISOString : string) :
  let stamp := slice_0_19 (replace_colons_dots toISOString) in
  screenshot_name toISOString = "screenshot-" +:+ stamp +:+ ".png"
  ∧ String.length stamp = Nat.min 19 (String.length toISOString)
  ∧ ∀ i c, String.get i stamp = Some c →
      c ≠ ":"%char ∧ c ≠ "."%char
      ∧ ∃ c', String.get i toISOString = Some c'
              ∧ (c' ≠ ":"%char → c' ≠ "."%char → c = c')
              ∧ (c' = ":"%char ∨ c' = "."%char → c = "-"%char).
Proof.
  cbv zeta. split; [reflexivity|]. unfold slice_0_19. split.
  - now rewrite substring_0_length, replace_colons_dots_length.
  - intros i c Hget. apply substring_0_get in Hget.
    apply replace_colons_dots_get in Hget as (c' & Hc' & ->).
    split; [apply dash_safe|]. split; [apply dash_safe|].
    exists c'. split; [exact Hc'|]. unfold dash. split.
    + intros Hcolon Hdot.
      destruct (Ascii.eqb_spec c' ":"); [contradiction|].
      destruct (Ascii.eqb_spec c' "."); [contradiction|reflexivity].
    + intros [-> | ->]; reflexivity.
Qed.

(** ** Clicking "Criar Caixa de Corte" again *)

Lemma helpers_in_scene_app (calls more : list call) (n : nat) :
  helpers_in_scene (calls ++ more) n
  = helpers_in_scene more (helpers_in_scene calls n).
Proof. unfold helpers_in_scene. apply fold_left_app. Qed.

Lemma planes_app (calls more : list call) :
  planes (calls ++ more) = planes calls ++ planes more.
Proof. unfold planes. apply omap_app. Qed.

Lemma createClippingBox_times_S (k : nat) (fragments_list : list Model)
    (clippingBoxHelper : option BoxHelper) :
  createClippingBox_times (S k) fragments_list clippingBoxHelper
  = (fst (createClippingBox_times k fragments_list
            (fst (createClippingBox fragments_list clippingBoxHelper))),
     snd (createClippingBox fragments_list clippingBoxHelper)
     ++ snd (createClippingBox_times k fragments_list
               (fst (createClippingBox fragments_list clippingBoxHelper)))).
Proof.
  cbn [createClippingBox_times].
  destruct (createClippingBox fragments_list clippingBoxHelper) as [h c].
  cbn [fst snd]. now destruct (createClippingBox_times k fragments_list h).
Qed.

(** One click with a model whose box is computed: a helper is held
    afterwards, one is in the scene, six planes are asked for. *)
Lemma createClippingBox_once (model : Model) (rest : list Model) (box : Box3)
    (clippingBoxHelper : option BoxHelper) :
  setFromObject model = Returns box →
  let out := createClippingBox (model :: rest) clippingBoxHelper in
  is_Some (fst out)
  ∧ helpers_in_scene (snd out) (held clippingBoxHelper) = 1%nat
  ∧ length (planes (snd out)) = 6%nat
  ∧ clipper_deleteAll ∉ snd out.
Proof.
  intros Hbox. cbv zeta. unfold createClippingBox, first_model. cbn [head].
  rewrite Hbox. cbn [fst snd]. split; [now eexists|].
  rewrite helpers_in_scene_app, planes_app.
  destruct clippingBoxHelper; (split; [reflexivity|]); (split; [reflexivity|]);
    cbn [app]; rewrite ?elem_of_cons; intros Hin;
    repeat (destruct Hin as [Hin|Hin]; [discriminate Hin|]);
    inversion Hin.
Qed.

(** X24. Clicking "Criar Caixa de Corte" again.  With a model loaded whose
    bounding box is computed, after k clicks (one or more), starting with
    no helper, the scene holds exactly one helper box (each click removes
    the one before), but the clipper has been asked for 6 k planes: the
    planes of earlier clicks are not deleted. *)
Theorem createClippingBox_again (k : nat) (model : Model) (rest : list Model)
    (box : Box3) :
  setFromObject model = Returns box →
  (0 < k)%nat →
  let out := createClippingBox_times k (model :: rest) None in
  is_Some (fst out)
  ∧ helpers_in_scene (snd out) 0 = 1%nat
  ∧ length (planes (snd out)) = (6 * k)%nat
  ∧ clipper_deleteAll ∉ snd out.
Proof.
  intros Hbox Hk. cbv zeta.
  enough (H : ∀ helper,
    is_Some (fst (createClippingBox_times k (model :: rest) helper))
    ∧ helpers_in_scene (snd (createClippingBox_times k (model :: rest) helper))
        (held helper) = 1%nat
    ∧ length (planes (snd (createClippingBox_times k (model :: rest) helper)))
      = (6 * k)%nat
    ∧ clipper_deleteAll
      ∉ snd (createClippingBox_times k (model :: rest) helper))
    by apply (H None).
  destruct k as [|k]; [lia|]. clear Hk.
  induction k as [|k IH]; intros helper;
    rewrite createClippingBox_times_S;
    pose proof (createClippingBox_once model rest box helper Hbox) as Honce;
    cbv zeta in Honce;
    destruct (createClippingBox (model :: rest) helper) as [helper' calls];
    cbn [fst snd] in Honce |- *;
    destruct Honce as (Hsome & Hscene & Hplanes & Hno).
  - cbn [createClippingBox_times fst snd]. rewrite app_nil_r. now repeat split.
  - specialize (IH helper').
    destruct (createClippingBox_times (S k) (model :: rest) helper')
      as [helper'' calls']. cbn [fst snd] in IH |- *.
    destruct IH as (Hsome' & Hscene' & Hplanes' & Hno').
    split; [exact Hsome'|]. rewrite helpers_in_scene_app, planes_app.
    rewrite Hscene, length_app, Hplanes, Hplanes'.
    destruct Hsome as [h ->]. split; [exact Hscene'|]. split; [lia|].
    rewrite elem_of_app. tauto.
Qed.

Lemma createClippingBox_again_witness :
  helpers_in_scene
    (snd (createClippingBox_times 3 [sample_model] None)) 0 = 1%nat
  ∧ length (planes (snd (createClippingBox_times 3 [sample_model] None)))
    = 18%nat.
Proof.
  destruct (createClippingBox_again 3 sample_model [] sample_box)
    as (_ & Hscene & Hplanes & _).
  - reflexivity.
  - lia.
  - split; [exact Hscene | exact Hplanes].
Defined.

(** ** The grid-level dropdown *)


